(** * mini.py: the recursive utility walker and its build stages

    A shallow embedding of [src/mini.py]. The script is written for
    Python 2: its HTML handler writes the lines of the captured subprocess
    output, which are byte strings, to a file opened in text mode, and
    rewrites them with a regular expression compiled from a text pattern.
    There the captured output is a [str], and [str(x)] on it is [x] itself.

    Layout: the Python library functions the script uses, the effect monad
    (file store, raised exceptions, emitted events), the walker
    [_perform_utilproc], the four stage functions, [build] and the module
    body, then the theorems. *)

From Stdlib Require Import ZArith Lia List Ascii String.
From stdpp Require Import gmap strings list fin_maps.

Local Open Scope string_scope.
Local Open Scope Z_scope.

(* ===================================================================== *)
(** ** Python string and path primitives *)
(* ===================================================================== *)

Module Py.

(** [s[:k]] for [0 <= k]. *)
Fixpoint take (k : nat) (s : string) : string :=
  match k, s with
  | S k', String a s' => String a (take k' s')
  | _, _ => EmptyString
  end.

(** [s[k:]] for [0 <= k]. *)
Fixpoint drop (k : nat) (s : string) : string :=
  match k, s with
  | S k', String _ s' => drop k' s'
  | _, _ => s
  end.

(** [s[k]], [None] past the end. *)
Fixpoint nth_char (k : nat) (s : string) : option ascii :=
  match s, k with
  | EmptyString, _ => None
  | String a _, O => Some a
  | String _ s', S k' => nth_char k' s'
  end.

(** [s.rfind(c)] counted from offset [i]: the highest index holding [c],
    or [-1]. *)
Fixpoint rfind_from (c : ascii) (s : string) (i : Z) : Z :=
  match s with
  | EmptyString => -1
  | String a s' =>
      let r := rfind_from c s' (i + 1) in
      if 0 <=? r then r else if Ascii.eqb a c then i else -1
  end.

Definition rfind (s : string) (c : ascii) : Z := rfind_from c s 0.

Definition startswith_slash (s : string) : bool :=
  match s with
  | String a _ => Ascii.eqb a "/"
  | EmptyString => false
  end.

Fixpoint endswith_slash (s : string) : bool :=
  match s with
  | EmptyString => false
  | String a EmptyString => Ascii.eqb a "/"
  | String _ s' => endswith_slash s'
  end.

(** [posixpath.join(a, b)]. *)
Definition join (a b : string) : string :=
  if startswith_slash b then b
  else if String.eqb a "" || endswith_slash a then a +:+ b
  else a +:+ "/" +:+ b.

(** The [while] loop of [genericpath._splitext] that skips the leading
    dots of the file name: [true] when a character other than the dot is
    met at an index in [[i, i + n)]. *)
Fixpoint meets_non_dot (p : string) (i n : nat) : bool :=
  match n with
  | O => false
  | S n' =>
      match nth_char i p with
      | Some a => if Ascii.eqb a "." then meets_non_dot p (S i) n' else true
      | None => true
      end
  end.

(** [os.path.splitext(p)] on POSIX ([sep = '/'], no [altsep],
    [extsep = '.']). *)
Definition splitext (p : string) : string * string :=
  let sepIndex := rfind p "/" in
  let dotIndex := rfind p "." in
  if (sepIndex <? dotIndex)
     && meets_non_dot p (Z.to_nat (sepIndex + 1))
                      (Z.to_nat (dotIndex - (sepIndex + 1)))
  then (take (Z.to_nat dotIndex) p, drop (Z.to_nat dotIndex) p)
  else (p, "").

(** [os.path.basename(p)]: [p[p.rfind('/') + 1:]]. *)
Definition basename (p : string) : string :=
  drop (Z.to_nat (rfind p "/" + 1)) p.

(** [sep.join(l)]. *)
Definition str_join (sep : string) (l : list string) : string :=
  String.concat sep l.

(** [s.splitlines()] on a byte string: lines end at LF, CR or CR LF; the
    terminators are dropped and no empty last line is produced. [cur]
    holds the characters of the line being read. *)
Fixpoint splitlines_from (cur : string) (s : string) : list string :=
  match s with
  | EmptyString => if String.eqb cur "" then [] else [cur]
  | String a s' =>
      if Ascii.eqb a "010" then cur :: splitlines_from "" s'
      else if Ascii.eqb a "013" then
        match s' with
        | String b s'' =>
            if Ascii.eqb b "010" then cur :: splitlines_from "" s''
            else cur :: splitlines_from "" s'
        | EmptyString => [cur]
        end
      else splitlines_from (cur +:+ String a EmptyString) s'
  end.

Definition splitlines (s : string) : list string := splitlines_from "" s.

(** A shell-style matcher for patterns made of literal characters, [?]
    and [*], which is what [fnmatch.fnmatchcase] computes on a pattern
    without bracket expressions. It instantiates the matcher of the
    environment in the closed examples. *)
Fixpoint glob (pat : string) (name : string) : bool :=
  match pat with
  | EmptyString =>
      match name with EmptyString => true | _ => false end
  | String p pat' =>
      if Ascii.eqb p "*" then
        (fix star (name : string) : bool :=
           glob pat' name ||
           match name with
           | EmptyString => false
           | String _ name' => star name'
           end) name
      else
        match name with
        | EmptyString => false
        | String a name' =>
            (Ascii.eqb p "?" || Ascii.eqb p a) && glob pat' name'
        end
  end.

End Py.


(* ===================================================================== *)
(** ** Effects: file store, exceptions, emitted events *)
(* ===================================================================== *)

(** The exceptions the script raises or lets through. *)
Inductive exn : Type :=
| OSError (detail : string)
| IOError (detail : string)
| TypeError (detail : string)
| Exception_ (arg : option string).

(** [except (IOError, os.error)]. *)
Definition is_environment_error (e : exn) : bool :=
  match e with
  | OSError _ | IOError _ => true
  | TypeError _ | Exception_ _ => false
  end.

(** What [_perform_utilproc] hands back: [None] from the bare [return],
    or the pair [(succeeded, msg)]. *)
Inductive retval : Type :=
| ret_none
| ret_pair (ok : bool) (msg : option string).

Inductive severity : Type := Warning | Error | Ok | Info | Msg.

(** A value handed to [print] or to [cprint]; formatted values keep their
    arguments instead of the rendered text. *)
Inductive printed : Type :=
| P_str (s : string)
| P_processing (srcname : string) (args : list string)
| P_exn (e : exn)
| P_traceback (e : exn)
| P_build_finished.

(** Observable actions, in the order they happen. *)
Inductive event : Type :=
| Ev_listdir (path : string)
| Ev_popen (args : list string)
| Ev_open (path mode : string)
| Ev_write (path data : string)
| Ev_cprint (lvl : severity) (msg reg_msg : printed)
| Ev_print (x : printed).

Inductive res (A : Type) : Type :=
| Ret (a : A)
| Raise (e : exn).
Arguments Ret {A} a.
Arguments Raise {A} e.

(** File contents by path. *)
Abbreviation store := (gmap string string).

Record run (A : Type) : Type := Run {
  result : res A;
  final : store;
  emitted : list event
}.
Arguments Run {A} result final emitted.
Arguments result {A} r.
Arguments final {A} r.
Arguments emitted {A} r.

Definition M (A : Type) : Type := store -> run A.

(** [after evs r]: the run [r] preceded by the events [evs]. *)
Definition after {A : Type} (evs : list event) (r : run A) : run A :=
  Run (result r) (final r) (evs ++ emitted r).

#[global] Instance M_ret : MRet M := fun A a st => Run (Ret a) st [].

#[global] Instance M_bind : MBind M := fun A B f m st =>
  match result (m st) with
  | Ret a => after (emitted (m st)) (f a (final (m st)))
  | Raise e => Run (Raise e) (final (m st)) (emitted (m st))
  end.

Definition raise {A : Type} (e : exn) : M A := fun st => Run (Raise e) st [].

Definition emit (ev : event) : M unit := fun st => Run (Ret tt) st [ev].

Definition when (b : bool) (m : M unit) : M unit :=
  if b then m else mret tt.

(** [try: body / except (IOError, os.error) as err]: [Some err] when the
    body raised one of the two, [None] when it completed; any other
    exception passes through. *)
Definition try_except (body : M unit) : M (option exn) := fun st =>
  match result (body st) with
  | Ret _ => Run (Ret None) (final (body st)) (emitted (body st))
  | Raise e =>
      if is_environment_error e
      then Run (Ret (Some e)) (final (body st)) (emitted (body st))
      else Run (Raise e) (final (body st)) (emitted (body st))
  end.

(** [cprint.<lvl>(msg, reg_msg)] and [print(x)]. *)
Definition cprint (lvl : severity) (msg reg_msg : printed) : M unit :=
  emit (Ev_cprint lvl msg reg_msg).

Definition print (x : printed) : M unit := emit (Ev_print x).

(** [str(x)] for a byte string [x] (Python 2: the same string). *)
Definition str (x : string) : string := x.

(* ===================================================================== *)
(** ** The environment of a run *)
(* ===================================================================== *)

(** The directory tree under a path: a regular file, a directory with its
    entries in listing order, or a directory whose listing fails. *)
#[warnings="-register-all"]
Inductive node : Type :=
| File
| Dir (entries : list (string * node))
| Unlistable (detail : string).

(** [os.path.isdir]. *)
Definition isdir (t : node) : bool :=
  match t with
  | File => false
  | Dir _ | Unlistable _ => true
  end.

(** What [Popen(args, stdout=PIPE, stderr=PIPE)] followed by
    [communicate()] gives. *)
Inductive popen_result : Type :=
| Spawn_failed (detail : string)
| Exited (returncode : Z) (stdout stderr : string).

(** Everything outside the script: the glob matcher of [fnmatch], the
    external commands (they read the store and write nothing), whether a
    path can be opened for writing, the regular-expression substitution
    of the Django fix, the directory tree found under a path, and the
    directory of the script ([UTIL_ROOT]). *)
Record env : Type := Env {
  fnmatch : string -> string -> bool;
  popen : store -> list string -> popen_result;
  open_error : string -> option string;
  django_sub : string -> string;
  scan : store -> string -> node;
  UTIL_ROOT : string
}.

Section Script.

Context (E : env).

Definition UTIL_JOIN (name : string) : string := Py.join (UTIL_ROOT E) name.

Definition IGNORE_FILES : list string := [".DS_Store"; "*.pyc"; "tmp*"; "*.xcf"].

Definition MINIFY_CSS : list string :=
  ["java"; "-jar"; UTIL_JOIN "yuicompressor.jar"; "{FILENAME}"].
Definition MINIFY_HTML : list string :=
  ["java"; "-jar"; UTIL_JOIN "htmlcompressor.jar"; "{FILENAME}"].
Definition MINIFY_JS : list string := ["uglifyjs"; "{FILENAME}"].
Definition COMPRESS_FILE : list string := ["gzip"; "-c"; "{FILENAME}"].

(** The function made by [shutil.ignore_patterns] from [patterns],
    applied to [(path, names)]: the set of the names matched by some
    pattern. *)
Definition ignore_patterns (patterns : list string) (path : string)
    (names : list string) : gset string :=
  list_to_set
    (flat_map (fun pattern => List.filter (fun n => fnmatch E n pattern) names)
              patterns).

(** [Popen(args, ...)] then [communicate()]. *)
Definition Popen (args : list string) : M (Z * string * string) := fun st =>
  match popen E st args with
  | Spawn_failed d => Run (Raise (OSError d)) st [Ev_popen args]
  | Exited rc out err => Run (Ret (rc, out, err)) st [Ev_popen args]
  end.

(** [open(path, mode)] for a writing mode: the file is created or
    truncated. *)
Definition open (path mode : string) : M unit := fun st =>
  match open_error E path with
  | Some d => Run (Raise (IOError d)) st [Ev_open path mode]
  | None => Run (Ret tt) (<[path := ""]> st) [Ev_open path mode]
  end.

(** [f.write(data)] on the file opened at [path]: appends at the end. *)
Definition f_write (path data : string) : M unit := fun st =>
  Run (Ret tt) (<[path := default "" (st !! path) +:+ data]> st)
      [Ev_write path data].

(* --------------------------------------------------------------------- *)
(** *** [_perform_utilproc] *)
(* --------------------------------------------------------------------- *)

Section Call.

Variables (cmd_args : list string)
          (on_cmd : option (string -> string -> M unit))
          (include ignore : option (list string))
          (verbose : bool).

(** [[a if a != '{FILENAME}' else srcname for a in cmd_args]]. *)
Definition substitute (srcname : string) : list string :=
  map (fun a => if String.eqb a "{FILENAME}" then srcname else a) cmd_args.

(** The [else] branch of the [try] block: run the command on a file. *)
Definition run_command (srcname : string) : M unit :=
  let args := substitute srcname in
  when verbose (cprint Ok (P_str (str (Py.str_join " " args))) (P_str "")) ;;
  '(returncode, stdout, stderr) ← Popen args ;
  if negb (returncode =? 0) then
    cprint Error (P_str "ERROR PROCESSING: ") (P_processing srcname args) ;;
    print (P_str stderr)
  else
    match on_cmd with
    | Some f => f srcname stdout
    | None => when verbose (print (P_str stdout))
    end.

(** The message of the [except] clause: the format string has the one
    field [{0}], so [str(err)] does not appear in it. *)
Definition failure_msg (srcname : string) : string :=
  "Failed to perform util on " +:+ srcname +:+ ": ".

(** One iteration of [for name in names]: [recurse] is the recursive call
    on the entry and [next] the rest of the loop followed by the final
    [return (True, None)]. *)
Definition for_body (src : string) (include_names ignore_files : gset string)
    (name : string) (is_dir : bool) (recurse next : M retval) : M retval :=
  if bool_decide (name ∈ ignore_files) then
    when verbose (cprint Warning (P_str "ignored: ") (P_str (Py.join src name))) ;;
    next
  else
    let srcname := Py.join src name in
    if negb is_dir && negb (bool_decide (name ∈ include_names)) then
      when verbose (cprint Warning (P_str "excluded: ") (P_str (Py.join src name))) ;;
      next
    else
      caught ← try_except (if is_dir then recurse ;; mret tt
                           else run_command srcname) ;
      match caught with
      | None => next
      | Some err =>
          print (P_exn err) ;;
          mret (ret_pair false (Some (failure_msg srcname)))
      end.

Section Loop.

Variable recurse : string -> node -> M retval.
Variables (src : string) (include_names ignore_files : gset string).

Fixpoint for_loop (entries : list (string * node)) : M retval :=
  match entries with
  | [] => mret (ret_pair true None)
  | (name, child) :: rest =>
      for_body src include_names ignore_files name (isdir child)
               (recurse (Py.join src name) child) (for_loop rest)
  end.

End Loop.

Definition ignore_files_of (src : string) (names : list string) : gset string :=
  match ignore with
  | None => ∅
  | Some patterns => ignore_patterns patterns src names
  end.

Fixpoint _perform_utilproc (src : string) (t : node) {struct t} : M retval :=
  match include with
  | None => mret ret_none
  | Some inc =>
      match t with
      | Dir entries =>
          emit (Ev_listdir src) ;;
          let names := map fst entries in
          for_loop _perform_utilproc src
                   (ignore_patterns inc src names)
                   (ignore_files_of src names) entries
      | File => emit (Ev_listdir src) ;; raise (OSError "Not a directory")
      | Unlistable d => emit (Ev_listdir src) ;; raise (OSError d)
      end
  end.

End Call.

(** [(succeded, err) = _perform_utilproc(...)]: unpacking [None] raises
    [TypeError]. *)
Definition unpack (r : retval) : M (bool * option string) :=
  match r with
  | ret_none => raise (TypeError "'NoneType' object is not iterable")
  | ret_pair ok msg => mret (ok, msg)
  end.

(** [if not succeded: raise Exception(err)]. *)
Definition check (r : retval) : M unit :=
  '(succeded, err) ← unpack r ;
  if negb succeded then raise (Exception_ err) else mret tt.

(** The directory tree that the file system holds under [path] when a
    stage starts. The handlers of this script write next to the file being
    processed, in a directory that is already listed, so the tree a walk
    sees is the one found at its start. *)
Definition get_tree (path : string) : M node := fun st =>
  Run (Ret (scan E st path)) st [].

(* --------------------------------------------------------------------- *)
(** *** The stages *)
(* --------------------------------------------------------------------- *)

(** [min_filename] of [write_file]: [fnp[0] + '.min' + fnp[1]]. *)
Definition min_filename (filename : string) : string :=
  let fnp := Py.splitext filename in
  fnp.1 +:+ ".min" +:+ fnp.2.

(** [write_file] of [minify_css] and of [minify_js] (the same text in
    both). *)
Definition minify_write_file (filename compressed_content : string) : M unit :=
  open (min_filename filename) "w" ;;
  f_write (min_filename filename) (str compressed_content).

(** The [ignore] list that [minify_css] and [minify_js] pass. *)
Definition MINIFY_IGNORE : list string := ["*.min.*"; "lib"; "libs"; "vendor"].

Definition minify_css_walk (verbose : bool) : string -> node -> M retval :=
  _perform_utilproc MINIFY_CSS (Some minify_write_file)
                    (Some ["*.css"]) (Some MINIFY_IGNORE) verbose.

Definition minify_css (src util_dir : string) (verbose : bool) : M unit :=
  t ← get_tree src ;
  r ← minify_css_walk verbose src t ;
  check r.

Definition minify_js_walk (verbose : bool) : string -> node -> M retval :=
  _perform_utilproc MINIFY_JS (Some minify_write_file)
                    (Some ["*.js"]) (Some MINIFY_IGNORE) verbose.

Definition minify_js (src util_dir : string) (verbose : bool) : M unit :=
  t ← get_tree src ;
  r ← minify_js_walk verbose src t ;
  check r.

(** [for line in lines: f.write(line)]. *)
Fixpoint write_each (path : string) (lines : list string) : M unit :=
  match lines with
  | [] => mret tt
  | line :: rest => f_write path line ;; write_each path rest
  end.

(** An iterable of lines: what runs when the iteration starts, and the
    items. A list starts silently; the generator [fix_djangotemplate]
    prints when its body starts. *)
Definition lines_iter : Type := M unit * list string.

(** [write_file] of [minify_html]. *)
Definition html_write_file (filename : string) (lines : lines_iter) : M unit :=
  open filename "w" ;;
  lines.1 ;;
  write_each filename lines.2.

(** The generator [fix_djangotemplate]. *)
Definition fix_djangotemplate (template_name : string) (lines : list string)
  : lines_iter :=
  let filename := Py.basename template_name in
  (cprint Info (P_str ("Fixing Django template: " +:+ filename)) (P_str ""),
   map (django_sub E) lines).

(** [write_handler] of [minify_html]. *)
Definition write_handler (fix_django : bool) (filename content : string)
  : M unit :=
  let lines := Py.splitlines content in
  html_write_file filename
    (if fix_django then fix_djangotemplate filename lines
     else (mret tt, lines)).

Definition minify_html_walk (verbose fix_django : bool)
  : string -> node -> M retval :=
  _perform_utilproc MINIFY_HTML (Some (write_handler fix_django))
                    (Some ["*.html"]) None verbose.

Definition minify_html (src util_dir : string) (verbose fix_django : bool)
  : M unit :=
  t ← get_tree src ;
  r ← minify_html_walk verbose fix_django src t ;
  check r.

(** [write_file] of [gzip_content]. *)
Definition gzip_write_file (filename gzipped_content : string) : M unit :=
  open (filename +:+ ".gz") "wb" ;;
  f_write (filename +:+ ".gz") gzipped_content.

(** [if not ignore: ignore = []] then [ignore.append('*.gz')]. The list
    of a caller would be extended in place; the script passes none. *)
Definition gzip_ignore (ignore : option (list string)) : list string :=
  match ignore with
  | None | Some [] => ["*.gz"]
  | Some patterns => patterns ++ ["*.gz"]
  end.

Definition gzip_content_walk (include_files ignore : option (list string))
    (verbose : bool) : string -> node -> M retval :=
  _perform_utilproc COMPRESS_FILE (Some gzip_write_file)
                    include_files (Some (gzip_ignore ignore)) verbose.

Definition gzip_content (src util_dir : string)
    (include_files ignore : option (list string)) (verbose : bool) : M unit :=
  t ← get_tree src ;
  r ← gzip_content_walk include_files ignore verbose src t ;
  check r.

(** The decorator [timed]: the elapsed time is printed when [f] returns. *)
Definition timed {A : Type} (f : M A) : M A :=
  r ← f ;
  print P_build_finished ;;
  mret r.

Definition build (static_path util_dir : string) (ignore : list string)
    (verbose : bool) : M unit :=
  timed (
    cprint Info (P_str "Minifying html") (P_str "") ;;
    minify_html static_path util_dir verbose false ;;
    cprint Info (P_str "Minifying stylesheets") (P_str "") ;;
    minify_css static_path util_dir verbose ;;
    cprint Info (P_str "Minifying scripts") (P_str "") ;;
    minify_js static_path util_dir verbose ;;
    cprint Info (P_str "GZipping css") (P_str "") ;;
    gzip_content static_path util_dir (Some ["*.css"]) None verbose ;;
    cprint Info (P_str "GZipping js") (P_str "") ;;
    gzip_content static_path util_dir (Some ["*.js"]) None verbose ;;
    cprint Info (P_str "GZipping images") (P_str "") ;;
    gzip_content static_path util_dir
                 (Some ["*.jpg"; "*.png"; "*.gif"; "*.bmp"; "*.ico"]) None verbose).

(** The module body: [build] under [try ... except Exception]. *)
Definition main (path : string) (verbose : bool) : M unit := fun st =>
  let r := build path (UTIL_ROOT E) IGNORE_FILES verbose st in
  match result r with
  | Ret _ => r
  | Raise err =>
      Run (Ret tt) (final r)
          (emitted r ++ [Ev_print (P_traceback err);
                         Ev_cprint Error (P_exn err) (P_str "");
                         Ev_cprint Error (P_str "Build Failed!") (P_str "")])
  end.

End Script.

(** One directory level of a walk, as [_perform_utilproc] runs it after
    listing [names]: the loop over [entries] with the recursive call and
    the two name sets of that level. *)
Definition level (E : env) (cmd_args : list string)
    (on_cmd : option (string -> string -> M unit))
    (include : list string) (ignore : option (list string)) (verbose : bool)
    (src : string) (names : list string) (entries : list (string * node))
  : M retval :=
  for_loop E cmd_args on_cmd verbose
           (_perform_utilproc E cmd_args on_cmd (Some include) ignore verbose)
           src (ignore_patterns E include src names)
           (ignore_files_of E ignore src names) entries.

(** [matches E patterns name]: some pattern of the list matches [name]. *)
Definition matches (E : env) (patterns : list string) (name : string) : bool :=
  existsb (fnmatch E name) patterns.

Definition excluded (E : env) (ignore : option (list string)) (name : string)
  : bool :=
  match ignore with
  | None => false
  | Some patterns => matches E patterns name
  end.

(** The [try] block of the loop for the entry [name] of [src]. *)
Definition attempt (E : env) (cmd_args : list string)
    (on_cmd : option (string -> string -> M unit))
    (include : list string) (ignore : option (list string)) (verbose : bool)
    (src name : string) (child : node) : M unit :=
  if isdir child then
    _perform_utilproc E cmd_args on_cmd (Some include) ignore verbose
                      (Py.join src name) child ;; mret tt
  else run_command E cmd_args on_cmd verbose (Py.join src name).

(** The loop reaches the [try] block for this entry: its name is not
    excluded, and it is a directory or its name is included. *)
Definition processed (E : env) (include : list string)
    (ignore : option (list string)) (name : string) (child : node) : bool :=
  negb (excluded E ignore name) && (isdir child || matches E include name).

(** The levels of the three minify walks. *)
Definition minify_css_level (E : env) (verbose : bool) :=
  level E (MINIFY_CSS E) (Some (minify_write_file E)) ["*.css"]
        (Some MINIFY_IGNORE) verbose.

Definition minify_js_level (E : env) (verbose : bool) :=
  level E MINIFY_JS (Some (minify_write_file E)) ["*.js"]
        (Some MINIFY_IGNORE) verbose.

Definition minify_html_level (E : env) (verbose fix_django : bool) :=
  level E (MINIFY_HTML E) (Some (write_handler E fix_django)) ["*.html"]
        None verbose.

(** The events of a skipped entry. *)
Definition skip_events (verbose : bool) (what path : string) : list event :=
  if verbose then [Ev_cprint Warning (P_str what) (P_str path)] else [].

(** The events of a command invocation up to the spawn. *)
Definition spawn_events (verbose : bool) (args : list string) : list event :=
  (if verbose
   then [Ev_cprint Ok (P_str (Py.str_join " " args)) (P_str "")]
   else []) ++ [Ev_popen args].

(** An IO-level fault met while the entry [name] of [src] is processed in
    the store [st]: the entry is a directory that cannot be listed, the
    command cannot be spawned, or the output handler raises [IOError] or
    [OSError] after a successful command. *)
Inductive io_fault (E : env) (cmd_args : list string)
    (on_cmd : option (string -> string -> M unit)) (src name : string)
    (st : store) : node -> Prop :=
| fault_listing (d : string) :
    io_fault E cmd_args on_cmd src name st (Unlistable d)
| fault_spawn (d : string) :
    popen E st (substitute cmd_args (Py.join src name)) = Spawn_failed d ->
    io_fault E cmd_args on_cmd src name st File
| fault_handler (out err : string) (f : string -> string -> M unit) (e : exn) :
    popen E st (substitute cmd_args (Py.join src name)) = Exited 0 out err ->
    on_cmd = Some f ->
    result (f (Py.join src name) out st) = Raise e ->
    is_environment_error e = true ->
    io_fault E cmd_args on_cmd src name st File.

(** Every directory of the tree can be listed. *)
Fixpoint listable (t : node) : bool :=
  match t with
  | File => true
  | Dir entries => forallb (fun e => listable (snd e)) entries
  | Unlistable _ => false
  end.

(** The listings and command invocations among the events. *)
Definition is_action (ev : event) : bool :=
  match ev with
  | Ev_listdir _ | Ev_popen _ => true
  | _ => false
  end.

Definition actions (evs : list event) : list event := List.filter is_action evs.

(** What the filter selects, in the words of the specification: a walk
    lists its directory, then takes the entries in listing order; an
    excluded entry is passed over, a directory that is not excluded is
    walked in turn, a file that is not excluded and is included has the
    command run on its path. *)
Fixpoint plan (E : env) (cmd_args include : list string)
    (ignore : option (list string)) (src : string) (t : node) : list event :=
  Ev_listdir src ::
  match t with
  | Dir entries =>
      flat_map
        (fun e =>
           if excluded E ignore (fst e) then []
           else if isdir (snd e)
                then plan E cmd_args include ignore (Py.join src (fst e)) (snd e)
                else if matches E include (fst e)
                     then [Ev_popen (substitute cmd_args (Py.join src (fst e)))]
                     else [])
        entries
  | File | Unlistable _ => []
  end.

(** The extension [ext] of a path [name.ext] holds no dot and no slash. *)
Definition plain_ext (ext : string) : bool :=
  forallb (fun a => negb (Ascii.eqb a ".") && negb (Ascii.eqb a "/"))
          (list_ascii_of_string ext).

(** The last component of [name] holds a character other than the dot. *)
Definition has_stem (name : string) : bool :=
  existsb (fun a => negb (Ascii.eqb a "."))
          (list_ascii_of_string (Py.basename name)).

(** The outcome of the walk of the directory [src] with [entries]: the
    success pair, or the failure pair whose message names one of the
    entries. *)
Definition dir_outcome (src : string) (entries : list (string * node))
    (r : res retval) : Prop :=
  r = Ret (ret_pair true None)
  \/ exists name child,
       In (name, child) entries
       /\ r = Ret (ret_pair false (Some (failure_msg (Py.join src name)))).

(** A handler that raises nothing but [IOError] and [OSError]. *)
Definition raises_io_only (f : string -> string -> M unit) : Prop :=
  forall p c st e, result (f p c st) = Raise e -> is_environment_error e = true.

(** [s] with its CR and LF characters deleted. *)
Fixpoint without_newlines (s : string) : string :=
  match s with
  | EmptyString => EmptyString
  | String a s' =>
      if Ascii.eqb a "010" || Ascii.eqb a "013" then without_newlines s'
      else String a (without_newlines s')
  end.

(** The level of the compress walk. *)
Definition gzip_level (E : env) (include_files : list string)
    (ignore : option (list string)) (verbose : bool) :=
  level E COMPRESS_FILE (Some (gzip_write_file E)) include_files
        (Some (gzip_ignore ignore)) verbose.

(** The directory part of a path: everything up to and including its last
    slash (empty when there is none). [Py.basename] is the rest. *)
Definition dirpart (p : string) : string :=
  Py.take (Z.to_nat (Py.rfind p "/" + 1)) p.

(** The tree without the entries that the ignore list excludes, at every
    level. *)
Fixpoint prune (E : env) (ignore : option (list string)) (t : node) : node :=
  match t with
  | Dir entries =>
      Dir (flat_map
             (fun e =>
                if excluded E ignore (fst e) then []
                else [(fst e, prune E ignore (snd e))])
             entries)
  | File => File
  | Unlistable d => Unlistable d
  end.

(** Files written one after the other, each replacing what its path
    held. *)
Definition apply_writes (ws : list (string * string)) (st : store) : store :=
  fold_left (fun m w => <[fst w := snd w]> m) ws st.

(** A computation that does not look at the store: its result and its
    events are fixed, and it leaves the store it was given with fixed
    files replaced. *)
Definition oblivious {A : Type} (m : M A) : Prop :=
  exists r ws evs, forall st, m st = Run r (apply_writes ws st) evs.

(** The events other than console output: listings, spawns, opens and
    writes. *)
Definition is_effect (ev : event) : bool :=
  match ev with
  | Ev_cprint _ _ _ | Ev_print _ => false
  | _ => true
  end.

Definition effects (evs : list event) : list event := List.filter is_effect evs.

(** Two runs that differ in nothing but what they print. *)
Definition same_but_output {A : Type} (r1 r2 : run A) : Prop :=
  result r1 = result r2
  /\ final r1 = final r2
  /\ effects (emitted r1) = effects (emitted r2).

(** How a stage ends on the directory [src] with [entries]: it returns,
    or it raises [Exception] with the message that names one of the
    entries. *)
Definition stage_outcome (src : string) (entries : list (string * node))
    (r : res unit) : Prop :=
  r = Ret tt
  \/ exists name child,
       In (name, child) entries
       /\ r = Raise (Exception_ (Some (failure_msg (Py.join src name)))).

(* ===================================================================== *)
(** ** Concrete environments for the closed examples *)
(* ===================================================================== *)

Module Demo.

(** A tool that exits with status 0 and prints ["min"]. *)
Definition tool_ok (st : store) (args : list string) : popen_result :=
  Exited 0 "min" "".

(** A tool that exits with status 1 and a message on stderr. *)
Definition tool_syntax_error (st : store) (args : list string) : popen_result :=
  Exited 1 "" "syntax error".

(** No executable of that name. *)
Definition tool_missing (st : store) (args : list string) : popen_result :=
  Spawn_failed "No such file or directory".

Definition make (tool : store -> list string -> popen_result)
    (tree : node) : env :=
  {| fnmatch := fun name pat => Py.glob pat name;
     popen := tool;
     open_error := fun _ => None;
     django_sub := fun line => line;
     scan := fun _ _ => tree;
     UTIL_ROOT := "bin" |}.

(** [root/a/locked] cannot be listed; [root/b.css] is a sibling of [a]. *)
Definition locked_subtree : node := Dir [("locked", Unlistable "Permission denied")].
Definition tree_locked : node := Dir [("a", locked_subtree); ("b.css", File)].

End Demo.


(* ===================================================================== *)
(** ** Evaluation of the library functions *)
(* ===================================================================== *)

Example join_plain : Py.join "static" "a.css" = "static/a.css".
Proof. reflexivity. Qed.
Example join_slash : Py.join "static/" "a.css" = "static/a.css".
Proof. reflexivity. Qed.
Example splitext_css : Py.splitext "static/app.css" = ("static/app", ".css").
Proof. reflexivity. Qed.
Example splitext_dotdir : Py.splitext "a.d/file" = ("a.d/file", "").
Proof. reflexivity. Qed.
Example splitext_hidden : Py.splitext "static/.css" = ("static/.css", "").
Proof. reflexivity. Qed.
Example splitlines_mixed :
  Py.splitlines ("a" +:+ String "010" ("b" +:+ String "013" (String "010" "c")))
  = ["a"; "b"; "c"].
Proof. reflexivity. Qed.
Example glob_min : Py.glob "*.min.*" "app.min.css" = true.
Proof. reflexivity. Qed.
Example glob_css_hidden : Py.glob "*.css" ".css" = true.
Proof. reflexivity. Qed.
Example glob_lib : Py.glob "lib" "libs" = false.
Proof. reflexivity. Qed.

(* ===================================================================== *)
(** ** Laws of the effect monad *)
(* ===================================================================== *)

Lemma after_nil {A : Type} (r : run A) : after [] r = r.
Proof. destruct r; reflexivity. Qed.

Lemma after_app {A : Type} (evs1 evs2 : list event) (r : run A) :
  after (evs1 ++ evs2) r = after evs1 (after evs2 r).
Proof. unfold after; simpl. by rewrite app_assoc. Qed.

Lemma after_result {A : Type} (evs : list event) (r : run A) :
  result (after evs r) = result r.
Proof. reflexivity. Qed.

Lemma bind_emit {A : Type} (ev : event) (k : M A) (st : store) :
  (emit ev ;; k) st = after [ev] (k st).
Proof. reflexivity. Qed.

Lemma bind_ret {A B : Type} (a : A) (k : A -> M B) (st : store) :
  (mret a ≫= k) st = k a st.
Proof.
  unfold mbind, M_bind, mret, M_ret; simpl. apply after_nil.
Qed.

Lemma bind_when {A : Type} (b : bool) (ev : event) (k : M A) (st : store) :
  (when b (emit ev) ;; k) st = after (if b then [ev] else []) (k st).
Proof.
  destruct b; simpl; [reflexivity|]. unfold when. by rewrite bind_ret, after_nil.
Qed.

Lemma bind_try_except {A : Type} (body : M unit) (k : option exn -> M A)
    (st : store) :
  (try_except body ≫= k) st
  = match result (body st) with
    | Ret _ => after (emitted (body st)) (k None (final (body st)))
    | Raise e =>
        if is_environment_error e
        then after (emitted (body st)) (k (Some e) (final (body st)))
        else Run (Raise e) (final (body st)) (emitted (body st))
    end.
Proof.
  unfold mbind, M_bind, try_except.
  destruct (result (body st)) as [[]|e]; simpl; [reflexivity|].
  destruct (is_environment_error e); reflexivity.
Qed.

(* ===================================================================== *)
(** ** Name sets of a level *)
(* ===================================================================== *)

Lemma elem_of_ignore_patterns (E : env) (patterns : list string)
    (src : string) (names : list string) (name : string) :
  name ∈ ignore_patterns E patterns src names
  <-> name ∈ names /\ matches E patterns name = true.
Proof.
  unfold ignore_patterns, matches.
  rewrite elem_of_list_to_set, list_elem_of_In, in_flat_map, existsb_exists.
  split.
  - intros (pat & Hpat & Hin). apply filter_In in Hin as [Hin Hm].
    split; [by apply list_elem_of_In | eauto].
  - intros (Hin & pat & Hpat & Hm). exists pat. split; [done|].
    apply filter_In. split; [by apply list_elem_of_In | done].
Qed.

Lemma included_decide (E : env) (include : list string) (src : string)
    (names : list string) (name : string) :
  name ∈ names ->
  bool_decide (name ∈ ignore_patterns E include src names)
  = matches E include name.
Proof.
  intros Hin. destruct (matches E include name) eqn:Hm.
  - apply bool_decide_eq_true. by apply elem_of_ignore_patterns.
  - apply bool_decide_eq_false. rewrite elem_of_ignore_patterns.
    intros [_ H]. congruence.
Qed.

Lemma excluded_decide (E : env) (ignore : option (list string)) (src : string)
    (names : list string) (name : string) :
  name ∈ names ->
  bool_decide (name ∈ ignore_files_of E ignore src names)
  = excluded E ignore name.
Proof.
  intros Hin. destruct ignore as [patterns|]; simpl.
  - by apply included_decide.
  - apply bool_decide_eq_false. set_solver.
Qed.

(* ===================================================================== *)
(** ** One entry of a level *)
(* ===================================================================== *)

Section Level.

Context (E : env) (cmd_args : list string)
        (on_cmd : option (string -> string -> M unit))
        (include : list string) (ignore : option (list string))
        (verbose : bool) (src : string) (names : list string).

Local Abbreviation lev :=
  (level E cmd_args on_cmd include ignore verbose src names).
Local Abbreviation walk :=
  (_perform_utilproc E cmd_args on_cmd (Some include) ignore verbose).
Local Abbreviation attempt :=
  (attempt E cmd_args on_cmd include ignore verbose src).

(** Listing a directory, then its level. *)
Lemma walk_Dir (entries : list (string * node)) (st : store) :
  walk src (Dir entries) st
  = after [Ev_listdir src]
          (level E cmd_args on_cmd include ignore verbose src
                 (map fst entries) entries st).
Proof. reflexivity. Qed.

Lemma walk_Unlistable (d : string) (st : store) :
  walk src (Unlistable d) st = Run (Raise (OSError d)) st [Ev_listdir src].
Proof. reflexivity. Qed.

Lemma walk_File (st : store) :
  walk src File st
  = Run (Raise (OSError "Not a directory")) st [Ev_listdir src].
Proof. reflexivity. Qed.

Lemma level_nil (st : store) : lev [] st = Run (Ret (ret_pair true None)) st [].
Proof. reflexivity. Qed.

(** An excluded entry is skipped. *)
Lemma level_excluded (name : string) (child : node)
    (rest : list (string * node)) (st : store) :
  name ∈ names ->
  excluded E ignore name = true ->
  lev ((name, child) :: rest) st
  = after (skip_events verbose "ignored: " (Py.join src name)) (lev rest st).
Proof.
  intros Hin Hex. unfold level; simpl. unfold for_body.
  rewrite (excluded_decide _ _ _ _ _ Hin), Hex.
  unfold cprint. by rewrite bind_when.
Qed.

(** A file that is not included is skipped. *)
Lemma level_not_included (name : string) (rest : list (string * node))
    (st : store) :
  name ∈ names ->
  excluded E ignore name = false ->
  matches E include name = false ->
  lev ((name, File) :: rest) st
  = after (skip_events verbose "excluded: " (Py.join src name)) (lev rest st).
Proof.
  intros Hin Hex Hinc. unfold level; simpl. unfold for_body.
  rewrite (excluded_decide _ _ _ _ _ Hin), Hex.
  rewrite (included_decide _ _ _ _ _ Hin), Hinc. simpl.
  unfold cprint. by rewrite bind_when.
Qed.

(** An entry that is not skipped: the [try] block runs, then either the
    loop goes on or the [except] clause returns the failure. *)
Lemma level_processed (name : string) (child : node)
    (rest : list (string * node)) (st : store) :
  name ∈ names ->
  processed E include ignore name child = true ->
  lev ((name, child) :: rest) st
  = let a := attempt name child st in
    match result a with
    | Ret _ => after (emitted a) (lev rest (final a))
    | Raise e =>
        if is_environment_error e
        then Run (Ret (ret_pair false (Some (failure_msg (Py.join src name)))))
                 (final a) (emitted a ++ [Ev_print (P_exn e)])
        else Run (Raise e) (final a) (emitted a)
    end.
Proof.
  intros Hin Hp. unfold processed in Hp.
  apply andb_true_iff in Hp as [Hex Hinc]. apply negb_true_iff in Hex.
  unfold level; simpl. unfold for_body.
  rewrite (excluded_decide _ _ _ _ _ Hin), Hex.
  rewrite (included_decide _ _ _ _ _ Hin).
  replace (negb (isdir child) && negb (matches E include name)) with false
    by (destruct (isdir child), (matches E include name); done).
  change (if isdir child then _ else _) with (attempt name child).
  rewrite bind_try_except.
  destruct (result (attempt name child st)) as [[]|e]; [reflexivity|].
  destruct (is_environment_error e); reflexivity.
Qed.

(** A level is its entries one after the other: the loop on
    [entry :: rest] is the loop on [entry] alone, followed by the loop on
    [rest] when the former came to its end. *)
Lemma level_cons_seq (name : string) (child : node)
    (rest : list (string * node)) (st : store) :
  lev ((name, child) :: rest) st
  = let one := lev [(name, child)] st in
    match result one with
    | Ret (ret_pair true None) => after (emitted one) (lev rest (final one))
    | _ => one
    end.
Proof.
  unfold level; simpl for_loop. unfold for_body.
  destruct (bool_decide (name ∈ ignore_files_of E ignore src names)).
  { unfold cprint. rewrite !bind_when. simpl.
    by rewrite app_nil_r. }
  destruct (negb (isdir child)
            && negb (bool_decide (name ∈ ignore_patterns E include src names))).
  { unfold cprint. rewrite !bind_when. simpl.
    by rewrite app_nil_r. }
  rewrite !bind_try_except.
  match goal with |- context [result (?body st)] => set (a := body st) end.
  destruct (result a) as [[]|e]; simpl.
  - by rewrite app_nil_r.
  - destruct (is_environment_error e); reflexivity.
Qed.

End Level.

(* ===================================================================== *)
(** ** The command on one file *)
(* ===================================================================== *)

Section Command.

Context (E : env) (cmd_args : list string)
        (on_cmd : option (string -> string -> M unit)) (verbose : bool).

Local Abbreviation run_cmd := (run_command E cmd_args on_cmd verbose).
Local Abbreviation args_of := (substitute cmd_args).

Lemma run_command_popen (srcname : string) (st : store) :
  run_cmd srcname st
  = after (if verbose
           then [Ev_cprint Ok (P_str (Py.str_join " " (args_of srcname))) (P_str "")]
           else [])
      ((Popen E (args_of srcname) ≫= fun '(returncode, stdout, stderr) =>
          if negb (returncode =? 0) then
            cprint Error (P_str "ERROR PROCESSING: ")
                   (P_processing srcname (args_of srcname)) ;;
            print (P_str stderr)
          else
            match on_cmd with
            | Some f => f srcname stdout
            | None => when verbose (print (P_str stdout))
            end) st).
Proof. unfold run_command, cprint, str. by rewrite bind_when. Qed.

Lemma run_command_spawn_failed (srcname d : string) (st : store) :
  popen E st (args_of srcname) = Spawn_failed d ->
  run_cmd srcname st
  = Run (Raise (OSError d)) st (spawn_events verbose (args_of srcname)).
Proof.
  intros Hp. rewrite run_command_popen.
  unfold mbind, M_bind, Popen. rewrite Hp. reflexivity.
Qed.

Lemma run_command_nonzero (srcname : string) (rc : Z) (out err : string)
    (st : store) :
  popen E st (args_of srcname) = Exited rc out err ->
  rc ≠ 0 ->
  run_cmd srcname st
  = Run (Ret tt) st
        (spawn_events verbose (args_of srcname)
         ++ [Ev_cprint Error (P_str "ERROR PROCESSING: ")
                       (P_processing srcname (args_of srcname));
             Ev_print (P_str err)]).
Proof.
  intros Hp Hrc. rewrite run_command_popen.
  unfold mbind, M_bind, Popen. rewrite Hp. simpl.
  apply Z.eqb_neq in Hrc. rewrite Hrc. simpl.
  unfold after, spawn_events; simpl. by rewrite <- app_assoc.
Qed.

Lemma run_command_handler (srcname out err : string)
    (f : string -> string -> M unit) (st : store) :
  popen E st (args_of srcname) = Exited 0 out err ->
  on_cmd = Some f ->
  run_cmd srcname st
  = after (spawn_events verbose (args_of srcname)) (f srcname out st).
Proof.
  intros Hp Hf. rewrite run_command_popen.
  unfold mbind, M_bind, Popen. rewrite Hp, Hf. simpl.
  unfold after, spawn_events; simpl. by rewrite <- app_assoc.
Qed.

End Command.

(* ===================================================================== *)
(** ** Claims on the walker *)
(* ===================================================================== *)



(** The [try] block of an entry that meets an IO-level fault raises
    [IOError] or [OSError]. *)
Lemma attempt_io_fault (E : env) (cmd_args : list string)
    (on_cmd : option (string -> string -> M unit))
    (include : list string) (ignore : option (list string)) (verbose : bool)
    (src name : string) (child : node) (st : store) :
  io_fault E cmd_args on_cmd src name st child ->
  exists e, result (attempt E cmd_args on_cmd include ignore verbose
                            src name child st) = Raise e
            /\ is_environment_error e = true.
Proof.
  intros [d | d Hp | out err f e Hp Hf Hr He]; unfold attempt; simpl.
  - exists (OSError d). split; reflexivity.
  - exists (OSError d). by rewrite (run_command_spawn_failed _ _ _ _ _ _ _ Hp).
  - exists e. rewrite (run_command_handler _ _ _ _ _ _ _ _ _ Hp Hf).
    by rewrite after_result.
Qed.




(** The events of a bound computation start with those of its first
    part. *)
Lemma bind_emitted_prefix {A B : Type} (m : M A) (k : A -> M B) (st : store) :
  exists evs, emitted ((m ≫= k) st) = (emitted (m st) ++ evs)%list.
Proof.
  unfold mbind, M_bind. destruct (result (m st)); simpl.
  - eexists; reflexivity.
  - exists []. by rewrite app_nil_r.
Qed.

Lemma run_command_emits_popen (E : env) (cmd_args : list string)
    (on_cmd : option (string -> string -> M unit)) (verbose : bool)
    (srcname : string) (st : store) :
  In (Ev_popen (substitute cmd_args srcname))
     (emitted (run_command E cmd_args on_cmd verbose srcname st)).
Proof.
  rewrite run_command_popen. simpl. apply in_or_app. right.
  match goal with
  | |- In _ (emitted ((?m ≫= ?k) st)) =>
      destruct (bind_emitted_prefix m k st) as [evs ->]
  end.
  apply in_or_app. left. unfold Popen.
  destruct (popen E st (substitute cmd_args srcname)); simpl; auto.
Qed.

Lemma walk_emits_listdir (E : env) (cmd_args : list string)
    (on_cmd : option (string -> string -> M unit))
    (include : list string) (ignore : option (list string)) (verbose : bool)
    (src : string) (t : node) (st : store) :
  In (Ev_listdir src)
     (emitted (_perform_utilproc E cmd_args on_cmd (Some include) ignore
                                 verbose src t st)).
Proof.
  destruct t as [|entries|d].
  - rewrite walk_File. simpl. auto.
  - rewrite walk_Dir. simpl. auto.
  - rewrite walk_Unlistable. simpl. auto.
Qed.

(** What the [try] block of an entry emits is emitted by the level. *)
Lemma level_processed_emitted (E : env) (cmd_args : list string)
    (on_cmd : option (string -> string -> M unit))
    (include : list string) (ignore : option (list string)) (verbose : bool)
    (src : string) (names : list string) (name : string) (child : node)
    (rest : list (string * node)) (st : store) (ev : event) :
  name ∈ names ->
  processed E include ignore name child = true ->
  In ev (emitted (attempt E cmd_args on_cmd include ignore verbose
                          src name child st)) ->
  In ev (emitted (level E cmd_args on_cmd include ignore verbose src names
                        ((name, child) :: rest) st)).
Proof.
  intros Hin Hp Hev. rewrite (level_processed _ _ _ _ _ _ _ _ _ _ _ _ Hin Hp).
  simpl.
  destruct (result _) as [[]|e]; simpl.
  - apply in_or_app. by left.
  - destruct (is_environment_error e); simpl; [|done].
    apply in_or_app. by left.
Qed.

Lemma skip_events_no_popen (verbose : bool) (what path : string)
    (args : list string) :
  ~ In (Ev_popen args) (skip_events verbose what path ++ []).
Proof. destruct verbose; simpl; intros H; intuition discriminate. Qed.

Lemma skip_events_no_listdir (verbose : bool) (what path dir : string) :
  ~ In (Ev_listdir dir) (skip_events verbose what path ++ []).
Proof. destruct verbose; simpl; intros H; intuition discriminate. Qed.



(** The outcome of a recursive call that returns is dropped: whatever pair
    the call on a subdirectory hands back, the loop goes on with the next
    entry. *)
Lemma recursive_outcome_discarded (E : env) (cmd_args : list string)
    (on_cmd : option (string -> string -> M unit))
    (include : list string) (ignore : option (list string)) (verbose : bool)
    (src : string) (names : list string) (name : string) (child : node)
    (rest : list (string * node)) (st : store) (v : retval) :
  name ∈ names ->
  excluded E ignore name = false ->
  isdir child = true ->
  let sub := _perform_utilproc E cmd_args on_cmd (Some include) ignore verbose
                               (Py.join src name) child st in
  result sub = Ret v ->
  level E cmd_args on_cmd include ignore verbose src names
        ((name, child) :: rest) st
  = after (emitted sub)
          (level E cmd_args on_cmd include ignore verbose src names rest
                 (final sub)).
Proof.
  intros Hin Hex Hdir sub Hsub.
  rewrite level_processed; [|done|unfold processed; by rewrite Hex, Hdir].
  unfold attempt. rewrite Hdir. fold sub.
  unfold mbind at 1 2 3, M_bind. fold sub. rewrite Hsub. simpl.
  by rewrite app_nil_r.
Qed.

(** C1, at the failing input [root/{a/{locked/}, b.css}] with [locked]
    unlistable. The call on [root/a] returns the failure pair; the call on
    [root] drops it, goes on with the sibling [b.css] and returns
    [(True, None)]. *)
Theorem nested_failure_not_propagated :
  result (minify_css_walk (Demo.make Demo.tool_ok Demo.tree_locked) false
                          "root/a" Demo.locked_subtree ∅)
  = Ret (ret_pair false (Some "Failed to perform util on root/a/locked: "))
  /\ minify_css_walk (Demo.make Demo.tool_ok Demo.tree_locked) false
                     "root" Demo.tree_locked ∅
     = Run (Ret (ret_pair true None))
           {[ "root/b.min.css" := "min" ]}
           [Ev_listdir "root"; Ev_listdir "root/a"; Ev_listdir "root/a/locked";
            Ev_print (P_exn (OSError "Permission denied"));
            Ev_popen ["java"; "-jar"; "bin/yuicompressor.jar"; "root/b.css"];
            Ev_open "root/b.min.css" "w"; Ev_write "root/b.min.css" "min"].
Proof. split; vm_compute; reflexivity. Qed.

(** C3, the code at an absent include set. The walker does nothing (the
    store is unchanged, no event is emitted) and returns [None], which is
    no outcome pair: the stage that called it raises [TypeError] when it
    unpacks the result. *)
Theorem absent_include_returns_none (E : env) (cmd_args : list string)
    (on_cmd : option (string -> string -> M unit))
    (ignore : option (list string)) (verbose : bool)
    (src util_dir : string) (t : node) (st : store) :
  _perform_utilproc E cmd_args on_cmd None ignore verbose src t st
  = Run (Ret ret_none) st []
  /\ gzip_content E src util_dir None ignore verbose st
     = Run (Raise (TypeError "'NoneType' object is not iterable")) st [].
Proof.
  split.
  - destruct t; reflexivity.
  - unfold gzip_content, gzip_content_walk, get_tree, mbind, M_bind.
    cbn [result final emitted].
    destruct (scan E st src); reflexivity.
Qed.

(** C10. [build] does the same whatever its [ignore] argument: same
    result, same final store, same events. With the patterns of
    [IGNORE_FILES] as the argument, a file named [tmp.css] (it matches
    [tmp*]) is still minified and compressed. *)
Theorem build_independent_of_ignore :
  (forall (E : env) (static_path util_dir : string) (ignore1 ignore2 : list string)
          (verbose : bool) (st : store),
      build E static_path util_dir ignore1 verbose st
      = build E static_path util_dir ignore2 verbose st)
  /\ (let r := build (Demo.make Demo.tool_ok (Dir [("tmp.css", File)]))
                     "static" "bin" IGNORE_FILES false ∅ in
      matches (Demo.make Demo.tool_ok (Dir [("tmp.css", File)]))
              IGNORE_FILES "tmp.css" = true
      /\ In (Ev_popen ["java"; "-jar"; "bin/yuicompressor.jar"; "static/tmp.css"])
            (emitted r)
      /\ In (Ev_popen ["gzip"; "-c"; "static/tmp.css"]) (emitted r)).
Proof.
  split; [reflexivity|].
  vm_compute. intuition.
Qed.

(* ===================================================================== *)
(** ** [rfind] and [splitext] on a path [name.ext] *)
(* ===================================================================== *)

Section Paths.

Import Py.

Lemma append_cons (a : ascii) (s t : string) :
  String a s +:+ t = String a (s +:+ t).
Proof. reflexivity. Qed.

Lemma append_empty (t : string) : "" +:+ t = t.
Proof. reflexivity. Qed.

Lemma append_empty_r (s : string) : s +:+ "" = s.
Proof.
  induction s as [|a s IH]; [reflexivity|]. by rewrite append_cons, IH.
Qed.

Lemma concat_cons (line : string) (lines : list string) :
  String.concat "" (line :: lines) = line +:+ String.concat "" lines.
Proof.
  destruct lines as [|l2 lines]; [|reflexivity].
  simpl. by rewrite append_empty_r.
Qed.

Lemma append_assoc (s t u : string) : (s +:+ t) +:+ u = s +:+ (t +:+ u).
Proof.
  induction s as [|a s IH]; [reflexivity|].
  by rewrite !append_cons, IH.
Qed.

Lemma length_append (s t : string) :
  String.length (s +:+ t) = (String.length s + String.length t)%nat.
Proof.
  induction s as [|a s IH]; [reflexivity|].
  rewrite append_cons. simpl. by rewrite IH.
Qed.

(** No character of [s] is [c]. *)
Lemma rfind_from_absent (c : ascii) (s : string) (i : Z) :
  forallb (fun a => negb (Ascii.eqb a c)) (list_ascii_of_string s) = true ->
  rfind_from c s i = -1.
Proof.
  revert i. induction s as [|a s IH]; intros i H; [reflexivity|].
  simpl in H. apply andb_true_iff in H as [Ha Hs].
  simpl. rewrite (IH _ Hs). simpl.
  apply negb_true_iff in Ha. by rewrite Ha.
Qed.

Lemma rfind_from_range (c : ascii) (s : string) (i : Z) :
  0 <= i ->
  rfind_from c s i = -1
  \/ i <= rfind_from c s i < i + Z.of_nat (String.length s).
Proof.
  revert i. induction s as [|a s IH]; intros i Hi; [by left|].
  simpl rfind_from. destruct (IH (i + 1) ltac:(lia)) as [-> | Hr].
  - simpl. destruct (Ascii.eqb a c); [right|by left].
    simpl String.length. lia.
  - right. destruct (0 <=? rfind_from c s (i + 1)) eqn:Hle.
    + simpl String.length. lia.
    + apply Z.leb_gt in Hle. lia.
Qed.

(** A suffix without [c] does not move the last occurrence. *)
Lemma rfind_from_append_absent (c : ascii) (s t : string) (i : Z) :
  forallb (fun a => negb (Ascii.eqb a c)) (list_ascii_of_string t) = true ->
  rfind_from c (s +:+ t) i = rfind_from c s i.
Proof.
  intros Ht. revert i. induction s as [|a s IH]; intros i.
  - rewrite append_empty. by rewrite rfind_from_absent.
  - rewrite append_cons. simpl. by rewrite IH.
Qed.

(** The last occurrence is the one followed by a suffix without [c]. *)
Lemma rfind_from_append_last (c : ascii) (s t : string) (i : Z) :
  0 <= i ->
  forallb (fun a => negb (Ascii.eqb a c)) (list_ascii_of_string t) = true ->
  rfind_from c (s +:+ String c t) i = i + Z.of_nat (String.length s).
Proof.
  intros Hi Ht. revert i Hi. induction s as [|a s IH]; intros i Hi.
  - rewrite append_empty. simpl. rewrite (rfind_from_absent _ _ _ Ht). simpl.
    rewrite Ascii.eqb_refl. lia.
  - rewrite append_cons. simpl rfind_from. rewrite IH by lia.
    replace (0 <=? i + 1 + Z.of_nat (String.length s)) with true
      by (symmetry; apply Z.leb_le; lia).
    simpl String.length. lia.
Qed.

Lemma take_append (s t : string) : take (String.length s) (s +:+ t) = s.
Proof.
  induction s as [|a s IH]; [by destruct t|].
  rewrite append_cons. simpl. by rewrite IH.
Qed.

Lemma drop_append (s t : string) : drop (String.length s) (s +:+ t) = t.
Proof.
  induction s as [|a s IH]; [by destruct t|].
  rewrite append_cons. simpl. by rewrite IH.
Qed.

Lemma take_drop (k : nat) (s : string) : take k s +:+ drop k s = s.
Proof.
  revert s. induction k as [|k IH]; intros [|a s]; try reflexivity.
  simpl. by rewrite append_cons, IH.
Qed.

Lemma length_take (k : nat) (s : string) :
  (k <= String.length s)%nat -> String.length (take k s) = k.
Proof.
  revert s. induction k as [|k IH]; intros [|a s] Hk; simpl in *;
    try reflexivity; try lia.
  rewrite IH; lia.
Qed.

Lemma nth_char_append (pre : string) (a : ascii) (s : string) :
  nth_char (String.length pre) (pre +:+ String a s) = Some a.
Proof. induction pre as [|b pre IH]; [reflexivity|]. by rewrite append_cons. Qed.

(** The loop over the indices of [s] inside [pre ++ s ++ t] looks for a
    character of [s] that is not a dot. *)
Lemma meets_non_dot_middle (pre s t : string) :
  meets_non_dot (pre +:+ s +:+ t) (String.length pre) (String.length s)
  = existsb (fun a => negb (Ascii.eqb a ".")) (list_ascii_of_string s).
Proof.
  revert pre. induction s as [|a s IH]; intros pre; [reflexivity|].
  simpl String.length. simpl meets_non_dot.
  rewrite append_cons, nth_char_append. simpl.
  destruct (Ascii.eqb a ".") eqn:Ha; simpl; [|reflexivity].
  specialize (IH (pre +:+ String a "")).
  rewrite length_append in IH. simpl in IH.
  rewrite Nat.add_1_r in IH. rewrite <- IH.
  by rewrite append_assoc.
Qed.

(** [splitext] on [name.ext]: when the last component of [name] holds a
    character other than the dot and [ext] holds no dot and no slash, the
    path splits into [name] and [.ext]. *)
Lemma splitext_name_ext (name ext : string) :
  has_stem name = true ->
  plain_ext ext = true ->
  splitext (name +:+ "." +:+ ext) = (name, "." +:+ ext).
Proof.
  intros Hstem Hext. unfold plain_ext in Hext.
  assert (Hnodot : forallb (fun a => negb (Ascii.eqb a "."))
                           (list_ascii_of_string ext) = true).
  { apply forallb_forall. intros a Ha.
    rewrite forallb_forall in Hext. specialize (Hext a Ha).
    by apply andb_true_iff in Hext as [? _]. }
  assert (Hnoslash : forallb (fun a => negb (Ascii.eqb a "/"))
                             (list_ascii_of_string ("." +:+ ext)) = true).
  { simpl. apply forallb_forall. intros a Ha.
    rewrite forallb_forall in Hext. specialize (Hext a Ha).
    by apply andb_true_iff in Hext as [_ ?]. }
  unfold splitext, rfind.
  rewrite (rfind_from_append_absent "/" name ("." +:+ ext) 0 Hnoslash).
  change ("." +:+ ext) with (String "." ext).
  rewrite (rfind_from_append_last "." name ext 0 ltac:(lia) Hnodot).
  rewrite Z.add_0_l.
  unfold has_stem, basename, rfind in Hstem.
  set (sep := rfind_from "/" name 0) in *.
  assert (Hsep : sep = -1 \/ 0 <= sep < Z.of_nat (String.length name)).
  { destruct (rfind_from_range "/" name 0 ltac:(lia)) as [H|H];
      fold sep in H; [by left|right; lia]. }
  set (k := Z.to_nat (sep + 1)) in *.
  assert (Hk : (k <= String.length name)%nat) by (unfold k; lia).
  replace (sep <? Z.of_nat (String.length name)) with true
    by (symmetry; apply Z.ltb_lt; lia).
  replace (Z.to_nat (Z.of_nat (String.length name) - (sep + 1)))
    with (String.length (drop k name)).
  2:{ assert (Hlen : String.length name
                     = (String.length (take k name)
                        + String.length (drop k name))%nat)
        by (rewrite <- length_append; by rewrite take_drop).
      rewrite length_take in Hlen by done. unfold k in *. lia. }
  assert (Hm : meets_non_dot (name +:+ String "." ext) k
                             (String.length (drop k name)) = true).
  { rewrite <- (take_drop k name) at 1. rewrite append_assoc.
    pose proof (meets_non_dot_middle (take k name) (drop k name)
                                     (String "." ext)) as H.
    rewrite length_take in H by done. by rewrite H. }
  rewrite Hm. simpl.
  rewrite Nat2Z.id. by rewrite take_append, drop_append.
Qed.

End Paths.

(* ===================================================================== *)
(** ** The output handlers *)
(* ===================================================================== *)

Section Handlers.

Context (E : env).

Lemma open_ok (path mode : string) (st : store) :
  open_error E path = None ->
  open E path mode st = Run (Ret tt) (<[path := ""]> st) [Ev_open path mode].
Proof. intros H. unfold open. by rewrite H. Qed.

(** Opening for writing and writing once leaves exactly the data in the
    file, whatever the file held. *)
Lemma open_then_write (path mode data : string) (st : store) :
  open_error E path = None ->
  (open E path mode ;; f_write path data) st
  = Run (Ret tt) (<[path := data]> st) [Ev_open path mode; Ev_write path data].
Proof.
  intros H. unfold mbind, M_bind. rewrite (open_ok _ _ _ H). simpl.
  unfold f_write, after; simpl.
  by rewrite lookup_insert_eq, insert_insert_eq.
Qed.

Lemma minify_write_file_ok (filename content : string) (st : store) :
  open_error E (min_filename filename) = None ->
  minify_write_file E filename content st
  = Run (Ret tt) (<[min_filename filename := content]> st)
        [Ev_open (min_filename filename) "w";
         Ev_write (min_filename filename) content].
Proof. intros H. unfold minify_write_file, str. by apply open_then_write. Qed.

Lemma gzip_write_file_ok (filename content : string) (st : store) :
  open_error E (filename +:+ ".gz") = None ->
  gzip_write_file E filename content st
  = Run (Ret tt) (<[filename +:+ ".gz" := content]> st)
        [Ev_open (filename +:+ ".gz") "wb";
         Ev_write (filename +:+ ".gz") content].
Proof. intros H. unfold gzip_write_file. by apply open_then_write. Qed.

(** Writing the lines one after the other appends their concatenation. *)
Lemma write_each_appends (path : string) (lines : list string)
    (cur : string) (st : store) :
  st !! path = Some cur ->
  write_each path lines st
  = Run (Ret tt) (<[path := cur +:+ String.concat "" lines]> st)
        (map (Ev_write path) lines).
Proof.
  revert cur st. induction lines as [|line lines IH]; intros cur st Hcur.
  - simpl. unfold mret, M_ret. f_equal.
    symmetry. apply insert_id. by rewrite Hcur, append_empty_r.
  - change (write_each path (line :: lines) st)
      with (after [Ev_write path line]
              (write_each path lines
                 (<[path := default "" (st !! path) +:+ line]> st))).
    rewrite Hcur. cbn [default].
    rewrite (IH (cur +:+ line)) by apply lookup_insert_eq.
    unfold after; cbn [result final emitted]. f_equal.
    by rewrite insert_insert_eq, concat_cons, append_assoc.
Qed.

End Handlers.

(* ===================================================================== *)
(** ** Claims on the output handlers and the stages *)
(* ===================================================================== *)




(** C8 (amended). For a path [name.ext] whose extension holds no dot and
    no slash and whose last component before the extension holds a
    character other than the dot, the minify handler writes to exactly
    [name.min.ext]; for every path [p] the gzip handler writes to exactly
    [p.gz]. Both files are opened for writing and written once, so each
    holds exactly the content handed over, whatever it held before. *)
Theorem handlers_write_to_derived_names (E : env) (name ext p content : string)
    (st : store) :
  has_stem name = true ->
  plain_ext ext = true ->
  open_error E (name +:+ ".min." +:+ ext) = None ->
  open_error E (p +:+ ".gz") = None ->
  minify_write_file E (name +:+ "." +:+ ext) content st
  = Run (Ret tt) (<[name +:+ ".min." +:+ ext := content]> st)
        [Ev_open (name +:+ ".min." +:+ ext) "w";
         Ev_write (name +:+ ".min." +:+ ext) content]
  /\ gzip_write_file E p content st
     = Run (Ret tt) (<[p +:+ ".gz" := content]> st)
           [Ev_open (p +:+ ".gz") "wb"; Ev_write (p +:+ ".gz") content]
  /\ final (minify_write_file E (name +:+ "." +:+ ext) content st)
       !! (name +:+ ".min." +:+ ext) = Some content
  /\ final (gzip_write_file E p content st) !! (p +:+ ".gz") = Some content.
Proof.
  intros Hstem Hext Hmin Hgz.
  assert (Hname : min_filename (name +:+ "." +:+ ext)
                  = name +:+ ".min." +:+ ext).
  { unfold min_filename. rewrite (splitext_name_ext _ _ Hstem Hext).
    reflexivity. }
  assert (Hm := minify_write_file_ok E (name +:+ "." +:+ ext) content st).
  rewrite Hname in Hm. specialize (Hm Hmin).
  assert (Hg := gzip_write_file_ok E p content st Hgz).
  rewrite Hm, Hg. cbn [final].
  repeat split; apply lookup_insert_eq.
Qed.

Lemma handlers_write_to_derived_names_witness :
  minify_write_file (Demo.make Demo.tool_ok File) "static/app.css" "min"
                    {[ "static/app.min.css" := "stale" ]}
  = Run (Ret tt) {[ "static/app.min.css" := "min" ]}
        [Ev_open "static/app.min.css" "w"; Ev_write "static/app.min.css" "min"].
Proof.
  rewrite (proj1 (handlers_write_to_derived_names
                    (Demo.make Demo.tool_ok File) "static/app" "css"
                    "static/img.png" "min"
                    {[ "static/app.min.css" := "stale" ]}
                    eq_refl eq_refl eq_refl eq_refl)).
  vm_compute. reflexivity.
Defined.

(** C8, counterexample. The path [static/.css] is [name.ext] with
    [name = static/] and [ext = css]; the minify handler writes to
    [static/.css.min], not to [static/.min.css]. *)
Lemma hidden_file_min_name :
  "static/.css" = "static/" +:+ "." +:+ "css"
  /\ final (minify_write_file (Demo.make Demo.tool_ok File)
                              "static/.css" "min" ∅)
       !! ("static/" +:+ ".min." +:+ "css") = None
  /\ final (minify_write_file (Demo.make Demo.tool_ok File)
                              "static/.css" "min" ∅)
       !! "static/.css.min" = Some "min".
Proof. vm_compute. repeat split. Qed.

(** An included file whose command exits with status 0 and whose handler
    returns: the handler runs on the captured stdout, then the loop goes
    on from the store the handler left. *)
Lemma level_handler_step (E : env) (cmd_args : list string)
    (f : string -> string -> M unit)
    (include : list string) (ignore : option (list string)) (verbose : bool)
    (src : string) (names : list string) (name : string)
    (rest : list (string * node)) (st st' : store) (out err : string)
    (evs : list event) :
  name ∈ names ->
  matches E include name = true ->
  excluded E ignore name = false ->
  popen E st (substitute cmd_args (Py.join src name)) = Exited 0 out err ->
  f (Py.join src name) out st = Run (Ret tt) st' evs ->
  level E cmd_args (Some f) include ignore verbose src names
        ((name, File) :: rest) st
  = after (spawn_events verbose (substitute cmd_args (Py.join src name)) ++ evs)
          (level E cmd_args (Some f) include ignore verbose src names rest st').
Proof.
  intros Hin Hinc Hex Hp Hf.
  rewrite level_processed; [|done|unfold processed; by rewrite Hex, Hinc].
  unfold attempt; cbn [isdir].
  rewrite (run_command_handler _ _ _ _ _ _ _ _ _ Hp eq_refl), Hf.
  cbn [after result final emitted]. by rewrite after_app.
Qed.






(* ===================================================================== *)
(** ** A walk without IO-level fault *)
(* ===================================================================== *)

(** Induction on a directory tree, with the property at hand for every
    entry of a directory. *)
Lemma node_ind_entries (P : node -> Prop) :
  P File ->
  (forall d, P (Unlistable d)) ->
  (forall entries, Forall (fun e => P (snd e)) entries -> P (Dir entries)) ->
  forall t, P t.
Proof.
  intros HFile HUnl HDir. fix IH 1. intros [|entries|d].
  - exact HFile.
  - apply HDir. induction entries as [|[name child] rest IHrest].
    + constructor.
    + constructor; [apply IH | exact IHrest].
  - apply HUnl.
Qed.

Section NoFault.

Context (E : env) (cmd_args : list string)
        (on_cmd : option (string -> string -> M unit))
        (include : list string) (ignore : option (list string))
        (verbose : bool).

(** Every command can be spawned, whatever its exit status. *)
Hypothesis spawns :
  forall st args, exists rc out err, popen E st args = Exited rc out err.

(** The output handler returns. *)
Hypothesis handler_returns :
  forall f, on_cmd = Some f -> forall p c st, result (f p c st) = Ret tt.

Lemma run_command_returns (srcname : string) (st : store) :
  result (run_command E cmd_args on_cmd verbose srcname st) = Ret tt.
Proof.
  rewrite run_command_popen, after_result.
  unfold mbind at 1, M_bind, Popen.
  destruct (spawns st (substitute cmd_args srcname)) as (rc & out & err & ->).
  cbn [result final emitted]. rewrite after_result.
  destruct (rc =? 0); cbn [negb]; [|reflexivity].
  destruct on_cmd as [f|] eqn:Hf.
  - by apply handler_returns.
  - by destruct verbose.
Qed.

(** Exit statuses never turn the outcome of a walk into a failure: when
    every directory of the tree can be listed, every command can be spawned
    and the handler returns, the walk returns [(True, None)]. *)
Lemma walk_without_io_fault_succeeds (t : node) :
  listable t = true ->
  isdir t = true ->
  forall src st,
    result (_perform_utilproc E cmd_args on_cmd (Some include) ignore verbose
                              src t st)
    = Ret (ret_pair true None).
Proof.
  induction t as [|d|entries IH] using node_ind_entries;
    intros Hl Hd src st; try discriminate.
  rewrite walk_Dir, after_result.
  assert (Hnames : forall e, In e entries -> fst e ∈ map fst entries).
  { intros e He. apply list_elem_of_In. by apply in_map. }
  simpl in Hl. clear Hd.
  generalize dependent st.
  generalize dependent (map fst entries). intros names Hnames.
  induction entries as [|[name child] rest IHrest]; intros st.
  - reflexivity.
  - simpl in Hl. apply andb_true_iff in Hl as [Hchild Hrest].
    apply Forall_cons in IH as [IHchild IH]. simpl in IHchild.
    assert (Hin : name ∈ names) by (apply (Hnames (name, child)); by left).
    assert (Hnext : forall st', result (level E cmd_args on_cmd include ignore
                                              verbose src names rest st')
                                = Ret (ret_pair true None)).
    { apply IHrest; [done|done|]. intros e He. apply Hnames. by right. }
    destruct (excluded E ignore name) eqn:Hex.
    { rewrite level_excluded by done. by rewrite after_result. }
    destruct (isdir child) eqn:Hdir.
    + assert (Ha : result (attempt E cmd_args on_cmd include ignore verbose
                                   src name child st) = Ret tt).
      { unfold attempt. rewrite Hdir. unfold mbind, M_bind.
        by rewrite (IHchild Hchild eq_refl). }
      rewrite level_processed;
        [|done|unfold processed; by rewrite Hex, Hdir].
      cbn zeta. rewrite Ha. by rewrite after_result.
    + destruct child; try discriminate.
      destruct (matches E include name) eqn:Hinc.
      * rewrite level_processed;
          [|done|unfold processed; by rewrite Hex, Hinc].
        unfold attempt; cbn [isdir]. cbn zeta.
        rewrite run_command_returns. by rewrite after_result.
      * rewrite level_not_included by done. by rewrite after_result.
Qed.

(** The handler lists no directory and spawns no command. *)
Hypothesis handler_silent :
  forall f, on_cmd = Some f -> forall p c st, actions (emitted (f p c st)) = [].

Lemma actions_app (evs1 evs2 : list event) :
  actions (evs1 ++ evs2) = (actions evs1 ++ actions evs2)%list.
Proof. apply List.filter_app. Qed.

Lemma run_command_actions (srcname : string) (st : store) :
  actions (emitted (run_command E cmd_args on_cmd verbose srcname st))
  = [Ev_popen (substitute cmd_args srcname)].
Proof.
  rewrite run_command_popen. cbn [after emitted]. rewrite actions_app.
  replace (actions (if verbose then _ else _)) with (@nil event)
    by (by destruct verbose).
  unfold mbind at 1, M_bind, Popen.
  destruct (spawns st (substitute cmd_args srcname)) as (rc & out & err & ->).
  cbn [result final emitted after]. rewrite actions_app.
  change (actions [Ev_popen (substitute cmd_args srcname)])
    with [Ev_popen (substitute cmd_args srcname)].
  destruct (rc =? 0); cbn [negb]; [|reflexivity].
  destruct on_cmd as [f|] eqn:Hf.
  - by rewrite (handler_silent f eq_refl).
  - by destruct verbose.
Qed.

(** X2. The listings and invocations of a walk without IO-level fault are
    those that the filter selects, in that order. *)
Lemma walk_actions_follow_plan (t : node) :
  listable t = true ->
  isdir t = true ->
  forall src st,
    actions (emitted (_perform_utilproc E cmd_args on_cmd (Some include) ignore
                                        verbose src t st))
    = plan E cmd_args include ignore src t.
Proof.
  induction t as [|d|entries IH] using node_ind_entries;
    intros Hl Hd src st; try discriminate.
  rewrite walk_Dir. cbn [after emitted plan]. rewrite actions_app.
  change (actions [Ev_listdir src]) with [Ev_listdir src].
  cbn [app]. f_equal.
  assert (Hnames : forall e, In e entries -> fst e ∈ map fst entries).
  { intros e He. apply list_elem_of_In. by apply in_map. }
  simpl in Hl. clear Hd.
  generalize dependent st.
  generalize dependent (map fst entries). intros names Hnames.
  induction entries as [|[name child] rest IHrest]; intros st.
  - reflexivity.
  - simpl in Hl. apply andb_true_iff in Hl as [Hchild Hrest].
    apply Forall_cons in IH as [IHchild IH]. simpl in IHchild.
    assert (Hin : name ∈ names) by (apply (Hnames (name, child)); by left).
    assert (Hnext : forall st',
      actions (emitted (level E cmd_args on_cmd include ignore verbose src
                              names rest st'))
      = flat_map
          (fun e =>
             if excluded E ignore (fst e) then []
             else if isdir (snd e)
                  then plan E cmd_args include ignore (Py.join src (fst e)) (snd e)
                  else if matches E include (fst e)
                       then [Ev_popen (substitute cmd_args (Py.join src (fst e)))]
                       else [])
          rest).
    { apply IHrest; [done|done|]. intros e He. apply Hnames. by right. }
    cbn [flat_map fst snd].
    destruct (excluded E ignore name) eqn:Hex.
    { rewrite level_excluded by done. cbn [after emitted].
      rewrite actions_app, Hnext. by destruct verbose. }
    destruct (isdir child) eqn:Hdir.
    + pose proof (walk_without_io_fault_succeeds child Hchild Hdir
                    (Py.join src name) st) as Hsub.
      rewrite level_processed;
        [|done|unfold processed; by rewrite Hex, Hdir].
      cbn zeta. unfold attempt. rewrite Hdir.
      unfold mbind at 1 2 3 4, M_bind. rewrite Hsub.
      cbn [result final emitted after mret M_ret].
      rewrite !actions_app, Hnext, app_nil_r.
      by rewrite (IHchild Hchild eq_refl).
    + destruct child; try discriminate.
      destruct (matches E include name) eqn:Hinc.
      * rewrite level_processed;
          [|done|unfold processed; by rewrite Hex, Hinc].
        cbn zeta. unfold attempt; cbn [isdir].
        rewrite run_command_returns. cbn [after emitted].
        by rewrite actions_app, Hnext, run_command_actions.
      * rewrite level_not_included by done. cbn [after emitted].
        rewrite actions_app, Hnext. by destruct verbose.
Qed.

End NoFault.

(* ===================================================================== *)
(** ** Scenarios *)
(* ===================================================================== *)

(** The CSS stage on [root/{a.css, b.min.css, sub/{c.css}}]: the command
    runs on [a.css] and on [sub/c.css]; [b.min.css] is passed over. *)
Example scenario_css_tree :
  minify_css (Demo.make Demo.tool_ok
                (Dir [("a.css", File); ("b.min.css", File);
                      ("sub", Dir [("c.css", File)])]))
             "root" "bin" false ∅
  = Run (Ret tt)
        (<["root/a.min.css" := "min"]> {[ "root/sub/c.min.css" := "min" ]})
        [Ev_listdir "root";
         Ev_popen ["java"; "-jar"; "bin/yuicompressor.jar"; "root/a.css"];
         Ev_open "root/a.min.css" "w"; Ev_write "root/a.min.css" "min";
         Ev_listdir "root/sub";
         Ev_popen ["java"; "-jar"; "bin/yuicompressor.jar"; "root/sub/c.css"];
         Ev_open "root/sub/c.min.css" "w"; Ev_write "root/sub/c.min.css" "min"].
Proof. vm_compute. reflexivity. Qed.

(** The JS stage on [root/{x.js}] with a tool that exits with status 1:
    the stage returns, the error is logged, no file is written. *)
Example scenario_js_tool_failure :
  minify_js (Demo.make Demo.tool_syntax_error (Dir [("x.js", File)]))
            "root" "bin" false ∅
  = Run (Ret tt) ∅
        [Ev_listdir "root"; Ev_popen ["uglifyjs"; "root/x.js"];
         Ev_cprint Error (P_str "ERROR PROCESSING: ")
                   (P_processing "root/x.js" ["uglifyjs"; "root/x.js"]);
         Ev_print (P_str "syntax error")].
Proof. vm_compute. reflexivity. Qed.

(** The image stage on [root/{img.png, img.png.gz}]: only [img.png] is
    compressed, and the stale [img.png.gz] is overwritten. *)
Example scenario_gzip_rerun :
  gzip_content (Demo.make Demo.tool_ok
                  (Dir [("img.png", File); ("img.png.gz", File)]))
               "root" "bin" (Some ["*.png"]) None false
               {[ "root/img.png.gz" := "stale" ]}
  = Run (Ret tt) {[ "root/img.png.gz" := "min" ]}
        [Ev_listdir "root"; Ev_popen ["gzip"; "-c"; "root/img.png"];
         Ev_open "root/img.png.gz" "wb"; Ev_write "root/img.png.gz" "min"].
Proof. vm_compute. reflexivity. Qed.

(** A missing executable under the stage: the walk returns the failure
    pair and the stage raises [Exception] with its message. *)
Example scenario_missing_tool :
  result (minify_js (Demo.make Demo.tool_missing (Dir [("x.js", File)]))
                    "root" "bin" false ∅)
  = Raise (Exception_ (Some "Failed to perform util on root/x.js: ")).
Proof. vm_compute. reflexivity. Qed.

(** The module body when the root cannot be listed: the [OSError] comes
    up to the [except] clause, which reports the failed build. *)
Example scenario_main_unlistable_root :
  main (Demo.make Demo.tool_ok (Unlistable "Permission denied")) "root" false ∅
  = Run (Ret tt) ∅
        [Ev_cprint Info (P_str "Minifying html") (P_str "");
         Ev_listdir "root";
         Ev_print (P_traceback (OSError "Permission denied"));
         Ev_cprint Error (P_exn (OSError "Permission denied")) (P_str "");
         Ev_cprint Error (P_str "Build Failed!") (P_str "")].
Proof. vm_compute. reflexivity. Qed.

(* ===================================================================== *)
(** ** One entry alone, and what a walk keeps *)
(* ===================================================================== *)

Section Single.

Context (E : env) (cmd_args : list string)
        (on_cmd : option (string -> string -> M unit))
        (include : list string) (ignore : option (list string))
        (verbose : bool).

Local Abbreviation lev := (level E cmd_args on_cmd include ignore verbose).
Local Abbreviation walk :=
  (_perform_utilproc E cmd_args on_cmd (Some include) ignore verbose).
Local Abbreviation try_block :=
  (attempt E cmd_args on_cmd include ignore verbose).

(** The loop on one entry either passes it over, or runs its [try]
    block. *)
Lemma level_single (src : string) (names : list string) (name : string)
    (child : node) (st : store) :
  (exists evs, lev src names [(name, child)] st
               = Run (Ret (ret_pair true None)) st evs)
  \/ lev src names [(name, child)] st
     = match result (try_block src name child st) with
       | Ret _ => Run (Ret (ret_pair true None))
                      (final (try_block src name child st))
                      (emitted (try_block src name child st))
       | Raise e =>
           if is_environment_error e
           then Run (Ret (ret_pair false (Some (failure_msg (Py.join src name)))))
                    (final (try_block src name child st))
                    (emitted (try_block src name child st) ++ [Ev_print (P_exn e)])
           else Run (Raise e) (final (try_block src name child st))
                    (emitted (try_block src name child st))
       end.
Proof.
  unfold level; simpl for_loop. unfold for_body.
  destruct (bool_decide (name ∈ ignore_files_of E ignore src names)).
  { left. unfold cprint. rewrite bind_when. eexists. reflexivity. }
  destruct (negb (isdir child)
            && negb (bool_decide (name ∈ ignore_patterns E include src names))).
  { left. unfold cprint. rewrite bind_when. eexists. reflexivity. }
  right. rewrite bind_try_except.
  change (if isdir child then _ else _) with (try_block src name child).
  destruct (result (try_block src name child st)) as [[]|e].
  - unfold after; simpl. by rewrite app_nil_r.
  - destruct (is_environment_error e); reflexivity.
Qed.

(** A command run ends at the spawn, after the error report, or in the
    handler. *)
Lemma run_command_cases (srcname : string) (st : store) :
  (exists d evs, run_command E cmd_args on_cmd verbose srcname st
                 = Run (Raise (OSError d)) st evs)
  \/ (exists evs, run_command E cmd_args on_cmd verbose srcname st
                  = Run (Ret tt) st evs)
  \/ (exists f out evs, on_cmd = Some f
        /\ run_command E cmd_args on_cmd verbose srcname st
           = after evs (f srcname out st)).
Proof.
  destruct (popen E st (substitute cmd_args srcname)) as [d|rc out err] eqn:Hp.
  - left. eexists _, _. by apply run_command_spawn_failed.
  - destruct (Z.eq_dec rc 0) as [->|Hrc].
    + destruct on_cmd as [f|] eqn:Hf.
      * right. right. exists f, out. eexists. split; [reflexivity|].
        by eapply run_command_handler.
      * right. left. rewrite run_command_popen.
        unfold mbind, M_bind, Popen. rewrite Hp.
        destruct verbose; eexists; reflexivity.
    + right. left. eexists. by eapply run_command_nonzero.
Qed.

(** Where the store of a command run comes from: it is the one the
    handler left, or the one the command found. *)
Lemma run_command_final (srcname : string) (st : store) :
  final (run_command E cmd_args on_cmd verbose srcname st) = st
  \/ exists f out, on_cmd = Some f
       /\ final (run_command E cmd_args on_cmd verbose srcname st)
          = final (f srcname out st).
Proof.
  destruct (run_command_cases srcname st)
    as [(d & evs & ->) | [(evs & ->) | (f & out & evs & Hf & ->)]];
    [by left | by left |].
  right. exists f, out. by split.
Qed.

(** What a command run raises is [OSError] from the spawn, or what the
    handler raised. *)
Lemma run_command_raise (srcname : string) (st : store) (e : exn) :
  result (run_command E cmd_args on_cmd verbose srcname st) = Raise e ->
  is_environment_error e = true
  \/ exists f out, on_cmd = Some f /\ result (f srcname out st) = Raise e.
Proof.
  destruct (run_command_cases srcname st)
    as [(d & evs & ->) | [(evs & ->) | (f & out & evs & Hf & ->)]].
  - intros [= <-]. by left.
  - discriminate.
  - rewrite after_result. intros H. right. exists f, out. by split.
Qed.

(** Any property of the store that the handler keeps is kept by a walk:
    the walker writes nothing of its own. *)
Lemma walk_keeps (P : store -> Prop) :
  (forall f, on_cmd = Some f -> forall p c st, P st -> P (final (f p c st))) ->
  forall t src st, P st -> P (final (walk src t st)).
Proof.
  intros Hf. induction t as [|d|entries IH] using node_ind_entries;
    intros src st HP; try done.
  rewrite walk_Dir. cbn [after final].
  generalize (map fst entries). intros names. revert st HP.
  induction entries as [|[name child] rest IHrest]; intros st HP; [done|].
  apply Forall_cons in IH as [IHchild IH]. simpl in IHchild.
  assert (Hone : P (final (lev src names [(name, child)] st))).
  { destruct (level_single src names name child st) as [[evs ->] | ->];
      [done|].
    assert (Ha : P (final (try_block src name child st))).
    { unfold attempt. destruct (isdir child).
      - unfold mbind, M_bind.
        destruct (result (walk (Py.join src name) child st));
          cbn [after final mret M_ret]; by apply IHchild.
      - destruct (run_command_final (Py.join src name) st)
          as [-> | (f & out & Hcmd & ->)]; [done|]. by apply (Hf f). }
    destruct (result (try_block src name child st)) as [[]|e]; [done|].
    by destruct (is_environment_error e). }
  rewrite level_cons_seq. cbn zeta.
  destruct (result (lev src names [(name, child)] st)) as [[|[] []]|e];
    try done.
  cbn [after final]. by apply IHrest.
Qed.

End Single.

(* ===================================================================== *)
(** ** The handlers of the stages: what they raise and what they write *)
(* ===================================================================== *)

Section HandlerFacts.

Context (E : env).

Lemma open_fails (path mode d : string) (st : store) :
  open_error E path = Some d ->
  open E path mode st = Run (Raise (IOError d)) st [Ev_open path mode].
Proof. intros H. unfold open. by rewrite H. Qed.

(** Open, then write once: the file holds the data, or the open failed
    and nothing changed. *)
Lemma open_write_cases (path mode data : string) (st : store) :
  (exists d, (open E path mode ;; f_write path data) st
             = Run (Raise (IOError d)) st [Ev_open path mode])
  \/ (open E path mode ;; f_write path data) st
     = Run (Ret tt) (<[path := data]> st)
           [Ev_open path mode; Ev_write path data].
Proof.
  destruct (open_error E path) as [d|] eqn:Ho.
  - left. exists d. unfold mbind, M_bind. by rewrite (open_fails _ _ _ _ Ho).
  - right. by apply open_then_write.
Qed.

(** The HTML handler when the file can be opened: the file holds the
    lines. *)
Lemma write_handler_open_ok (fix_django : bool) (filename content : string)
    (st : store) :
  open_error E filename = None ->
  write_handler E fix_django filename content st
  = Run (Ret tt)
        (<[filename :=
             String.concat ""
               (if fix_django
                then map (django_sub E) (Py.splitlines content)
                else Py.splitlines content)]> st)
        (Ev_open filename "w"
         :: (if fix_django
             then [Ev_cprint Info
                     (P_str ("Fixing Django template: " +:+ Py.basename filename))
                     (P_str "")]
             else [])
         ++ map (Ev_write filename)
                (if fix_django
                 then map (django_sub E) (Py.splitlines content)
                 else Py.splitlines content)).
Proof.
  intros Ho. unfold write_handler, html_write_file.
  unfold mbind at 1, M_bind. rewrite (open_ok _ _ _ _ Ho).
  cbn [result final emitted].
  destruct fix_django; cbn [fst snd fix_djangotemplate].
  - unfold cprint. rewrite bind_emit.
    rewrite (write_each_appends _ _ "") by apply lookup_insert_eq.
    unfold after; cbn [result final emitted].
    by rewrite insert_insert_eq, append_empty.
  - rewrite bind_ret.
    rewrite (write_each_appends _ _ "") by apply lookup_insert_eq.
    unfold after; cbn [result final emitted].
    by rewrite insert_insert_eq, append_empty.
Qed.

(** The HTML handler: the file holds the lines, or the open failed and
    nothing changed. *)
Lemma write_handler_cases (fix_django : bool) (filename content : string)
    (st : store) :
  (exists d, write_handler E fix_django filename content st
             = Run (Raise (IOError d)) st [Ev_open filename "w"])
  \/ exists evs,
       write_handler E fix_django filename content st
       = Run (Ret tt)
             (<[filename :=
                  String.concat ""
                    (if fix_django
                     then map (django_sub E) (Py.splitlines content)
                     else Py.splitlines content)]> st)
             evs.
Proof.
  destruct (open_error E filename) as [d|] eqn:Ho.
  - left. exists d. unfold write_handler, html_write_file.
    unfold mbind at 1, M_bind. by rewrite (open_fails _ _ _ _ Ho).
  - right. eexists. by apply write_handler_open_ok.
Qed.

Lemma minify_write_file_raises_io_only : raises_io_only (minify_write_file E).
Proof.
  intros p c st e. unfold minify_write_file, str.
  destruct (open_write_cases (min_filename p) "w" c st) as [[d ->] | ->];
    [by intros [= <-] | discriminate].
Qed.

Lemma gzip_write_file_raises_io_only : raises_io_only (gzip_write_file E).
Proof.
  intros p c st e. unfold gzip_write_file.
  destruct (open_write_cases (p +:+ ".gz") "wb" c st) as [[d ->] | ->];
    [by intros [= <-] | discriminate].
Qed.

Lemma write_handler_raises_io_only (fix_django : bool) :
  raises_io_only (write_handler E fix_django).
Proof.
  intros p c st e.
  destruct (write_handler_cases fix_django p c st) as [[d ->] | [evs ->]];
    [by intros [= <-] | discriminate].
Qed.

(** The two parts of [splitext] put together give the path back. *)
Lemma splitext_concat (p : string) :
  (Py.splitext p).1 +:+ (Py.splitext p).2 = p.
Proof.
  unfold Py.splitext.
  destruct (_ && _); cbn [fst snd]; [apply take_drop | apply append_empty_r].
Qed.

Lemma length_min_filename (filename : string) :
  String.length (min_filename filename) = (String.length filename + 4)%nat.
Proof.
  unfold min_filename. cbn zeta.
  rewrite <- (splitext_concat filename) at 3.
  rewrite !length_append. simpl String.length. lia.
Qed.

Lemma min_filename_fresh (filename : string) :
  min_filename filename ≠ filename.
Proof.
  intros H. pose proof (length_min_filename filename) as Hl.
  rewrite H in Hl. lia.
Qed.

Lemma gz_name_fresh (filename : string) : filename +:+ ".gz" ≠ filename.
Proof.
  intros H. pose proof (length_append filename ".gz") as Hl.
  rewrite H in Hl. simpl in Hl. lia.
Qed.

End HandlerFacts.

(** X6. The CSS, JS and gzip handlers never touch the file they were called
    for: whether or not the derived file can be opened, the input path
    holds afterwards what it held before. *)
Theorem handlers_keep_their_input (E : env) (filename content : string)
    (st : store) :
  final (minify_write_file E filename content st) !! filename = st !! filename
  /\ final (gzip_write_file E filename content st) !! filename = st !! filename.
Proof.
  split.
  - unfold minify_write_file, str.
    destruct (open_write_cases E (min_filename filename) "w" content st)
      as [[d ->] | ->]; [done|].
    cbn [final]. apply lookup_insert_ne, min_filename_fresh.
  - unfold gzip_write_file.
    destruct (open_write_cases E (filename +:+ ".gz") "wb" content st)
      as [[d ->] | ->]; [done|].
    cbn [final]. apply lookup_insert_ne, gz_name_fresh.
Qed.

(* ===================================================================== *)
(** ** Outcomes and frames of whole walks *)
(* ===================================================================== *)

Section Outcome.

Context (E : env) (cmd_args : list string)
        (on_cmd : option (string -> string -> M unit))
        (include : list string) (ignore : option (list string))
        (verbose : bool).

Hypothesis handler_io_only : forall f, on_cmd = Some f -> raises_io_only f.

Local Abbreviation lev := (level E cmd_args on_cmd include ignore verbose).
Local Abbreviation walk :=
  (_perform_utilproc E cmd_args on_cmd (Some include) ignore verbose).

(** With such a handler a level ends in an outcome pair as soon as the
    walks of its subdirectories raise nothing but [IOError] and
    [OSError]. *)
Lemma level_outcome (src : string) (names : list string)
    (entries : list (string * node)) :
  Forall (fun e => forall src st x,
            result (walk src (snd e) st) = Raise x ->
            is_environment_error x = true) entries ->
  forall st, dir_outcome src entries (result (lev src names entries st)).
Proof.
  induction entries as [|[name child] rest IHrest]; intros Hsub st.
  { by left. }
  apply Forall_cons in Hsub as [Hchild Hsub]. simpl in Hchild.
  assert (Hrest : forall st',
    dir_outcome src ((name, child) :: rest) (result (lev src names rest st'))).
  { intros st'. destruct (IHrest Hsub st') as [H | (n & c & Hin & H)].
    - by left.
    - right. exists n, c. split; [by right | done]. }
  rewrite level_cons_seq. cbn zeta.
  destruct (level_single E cmd_args on_cmd include ignore verbose
              src names name child st) as [[evs ->] | ->].
  { cbn [result]. rewrite after_result. apply Hrest. }
  destruct (result (attempt E cmd_args on_cmd include ignore verbose
                            src name child st)) as [[]|x] eqn:Ha.
  { cbn [result]. rewrite after_result. apply Hrest. }
  assert (Hx : is_environment_error x = true).
  { unfold attempt in Ha. destruct (isdir child).
    - unfold mbind, M_bind in Ha.
      destruct (result (walk (Py.join src name) child st)) eqn:Hw;
        [discriminate|].
      cbn [result] in Ha. injection Ha as <-. by eapply Hchild.
    - apply run_command_raise in Ha as [Hx | (f & out & Hf & Hr)]; [done|].
      by eapply (handler_io_only f Hf). }
  rewrite Hx. cbn [result]. right. exists name, child. split; [by left|done].
Qed.

(** Such a walk raises nothing but [IOError] and [OSError], and that only
    when its own directory cannot be listed. *)
Lemma walk_raises_io_only (t : node) (src : string) (st : store) (x : exn) :
  result (walk src t st) = Raise x -> is_environment_error x = true.
Proof.
  revert src st x.
  induction t as [|d|entries IH] using node_ind_entries; intros src st x.
  - rewrite walk_File. by intros [= <-].
  - rewrite walk_Unlistable. by intros [= <-].
  - rewrite walk_Dir, after_result. intros Hr.
    destruct (level_outcome src (map fst entries) entries IH st)
      as [H | (n & c & _ & H)]; rewrite H in Hr; discriminate.
Qed.

Lemma walk_dir_outcome (src : string) (entries : list (string * node))
    (st : store) :
  dir_outcome src entries (result (walk src (Dir entries) st)).
Proof.
  rewrite walk_Dir, after_result. apply level_outcome.
  apply Forall_forall. intros e _ src' st' x. apply walk_raises_io_only.
Qed.

End Outcome.



(** X7. The compress walk changes no path but those of the form [p.gz]: a
    path that does not end in [.gz] holds after the walk what it held
    before, whatever the include and ignore lists. *)
Theorem gzip_walk_writes_gz_only (E : env) (verbose : bool)
    (include_files ignore : option (list string))
    (src : string) (t : node) (st : store) (k : string) :
  (forall p, k ≠ p +:+ ".gz") ->
  final (gzip_content_walk E include_files ignore verbose src t st) !! k
  = st !! k.
Proof.
  intros Hk. unfold gzip_content_walk. destruct include_files as [inc|].
  - apply (walk_keeps E COMPRESS_FILE (Some (gzip_write_file E)) inc
             (Some (gzip_ignore ignore)) verbose
             (fun st' => st' !! k = st !! k)); [|reflexivity].
    intros f [= <-] p c st' Hst'. unfold gzip_write_file.
    destruct (open_write_cases E (p +:+ ".gz") "wb" c st')
      as [[d ->] | ->]; [done|].
    cbn [final]. rewrite lookup_insert_ne; [done|]. intros H. by eapply Hk.
  - by destruct t.
Qed.

Lemma gzip_walk_writes_gz_only_witness :
  final (gzip_content_walk (Demo.make Demo.tool_ok (Dir [("a", File)]))
                           (Some ["*"]) None false "root" (Dir [("a", File)])
                           {[ "a" := "x" ]}) !! "a"
  = ({[ "a" := "x" ]} : store) !! "a".
Proof.
  apply gzip_walk_writes_gz_only.
  intros p H. destruct p as [|c [|c' p]]; cbv in H; discriminate H.
Defined.

(** X8. The CSS and JS minify walks change no path but the derived names
    [min_filename f]: every other path holds after the walk what it held
    before. *)
Theorem minify_walks_write_min_names_only (E : env) (verbose : bool)
    (src : string) (t : node) (st : store) (k : string) :
  (forall f, k ≠ min_filename f) ->
  final (minify_css_walk E verbose src t st) !! k = st !! k
  /\ final (minify_js_walk E verbose src t st) !! k = st !! k.
Proof.
  intros Hk.
  assert (Hkeep : forall f, Some (minify_write_file E) = Some f ->
            forall p c st', st' !! k = st !! k ->
                            final (f p c st') !! k = st !! k).
  { intros f [= <-] p c st' Hst'. unfold minify_write_file, str.
    destruct (open_write_cases E (min_filename p) "w" c st')
      as [[d ->] | ->]; [done|].
    cbn [final]. rewrite lookup_insert_ne; [done|]. intros H. by eapply Hk. }
  split.
  - by apply (walk_keeps E (MINIFY_CSS E) (Some (minify_write_file E))
                ["*.css"] (Some MINIFY_IGNORE) verbose
                (fun st' => st' !! k = st !! k)).
  - by apply (walk_keeps E MINIFY_JS (Some (minify_write_file E))
                ["*.js"] (Some MINIFY_IGNORE) verbose
                (fun st' => st' !! k = st !! k)).
Qed.

Lemma minify_walks_write_min_names_only_witness :
  final (minify_css_walk (Demo.make Demo.tool_ok (Dir [("a.css", File)]))
                         false "root" (Dir [("a.css", File)])
                         {[ "root/a.css" := "x" ]}) !! "a"
  = ({[ "root/a.css" := "x" ]} : store) !! "a".
Proof.
  refine (proj1 (minify_walks_write_min_names_only
                   (Demo.make Demo.tool_ok (Dir [("a.css", File)]))
                   false "root" (Dir [("a.css", File)])
                   {[ "root/a.css" := "x" ]} "a" _)).
  intros f H. pose proof (length_min_filename f) as Hl.
  rewrite <- H in Hl. simpl in Hl. lia.
Defined.

(** The [try] block of a directory entry is the recursive call with its
    value dropped. *)
Lemma attempt_dir (E : env) (cmd_args : list string)
    (on_cmd : option (string -> string -> M unit))
    (include : list string) (ignore : option (list string)) (verbose : bool)
    (src name : string) (child : node) (st : store) :
  isdir child = true ->
  attempt E cmd_args on_cmd include ignore verbose src name child st
  = match result (_perform_utilproc E cmd_args on_cmd (Some include) ignore
                                    verbose (Py.join src name) child st) with
    | Ret _ =>
        Run (Ret tt)
            (final (_perform_utilproc E cmd_args on_cmd (Some include) ignore
                                      verbose (Py.join src name) child st))
            (emitted (_perform_utilproc E cmd_args on_cmd (Some include) ignore
                                        verbose (Py.join src name) child st))
    | Raise e =>
        Run (Raise e)
            (final (_perform_utilproc E cmd_args on_cmd (Some include) ignore
                                      verbose (Py.join src name) child st))
            (emitted (_perform_utilproc E cmd_args on_cmd (Some include) ignore
                                        verbose (Py.join src name) child st))
    end.
Proof.
  intros Hdir. unfold attempt. rewrite Hdir. unfold mbind, M_bind.
  destruct (result _); [|reflexivity].
  unfold after; cbn [result final emitted mret M_ret]. by rewrite app_nil_r.
Qed.

Lemma skip_events_not_popen (verbose : bool) (what path : string)
    (args : list string) :
  ~ In (Ev_popen args) (skip_events verbose what path).
Proof. destruct verbose; simpl; intros H; intuition discriminate. Qed.

(** X9. With an empty include list a walk runs no command and leaves the
    store as it was, whatever the tree and the handler: the directories
    are walked, every file is passed over. *)
Theorem empty_include_transforms_nothing (E : env) (cmd_args : list string)
    (on_cmd : option (string -> string -> M unit))
    (ignore : option (list string)) (verbose : bool)
    (src : string) (t : node) (st : store) :
  final (_perform_utilproc E cmd_args on_cmd (Some []) ignore verbose src t st)
  = st
  /\ forall args,
       ~ In (Ev_popen args)
            (emitted (_perform_utilproc E cmd_args on_cmd (Some []) ignore
                                        verbose src t st)).
Proof.
  revert src st.
  induction t as [|d|entries IH] using node_ind_entries; intros src st.
  - rewrite walk_File. split; [done|]. simpl. intros args H.
    intuition discriminate.
  - rewrite walk_Unlistable. split; [done|]. simpl. intros args H.
    intuition discriminate.
  - rewrite walk_Dir. cbn [after final emitted].
    assert (Hnames : forall e, In e entries -> fst e ∈ map fst entries).
    { intros e He. apply list_elem_of_In. by apply in_map. }
    revert Hnames. generalize (map fst entries). intros names Hnames.
    enough (Hlev : final (level E cmd_args on_cmd [] ignore verbose src names
                                entries st) = st
                   /\ forall args,
                        ~ In (Ev_popen args)
                             (emitted (level E cmd_args on_cmd [] ignore verbose
                                             src names entries st))).
    { destruct Hlev as [Hfin Hev]. split; [done|]. intros args [H|H];
        [discriminate | by eapply Hev]. }
    induction entries as [|[name child] rest IHrest].
    { split; [done|]. intros args []. }
    apply Forall_cons in IH as [IHchild IH]. simpl in IHchild.
    assert (Hin : name ∈ names) by (apply (Hnames (name, child)); by left).
    destruct (IHrest IH) as [Hfin Hev].
    { intros e He. apply Hnames. by right. }
    destruct (excluded E ignore name) eqn:Hex.
    { rewrite level_excluded by done. cbn [after final emitted].
      split; [done|]. intros args H. apply in_app_or in H as [H|H].
      - by eapply skip_events_not_popen.
      - by eapply Hev. }
    destruct (isdir child) eqn:Hdir.
    + destruct (IHchild (Py.join src name) st) as [Hcf Hcev].
      rewrite level_processed;
        [|done|unfold processed; by rewrite Hex, Hdir].
      cbn zeta. rewrite attempt_dir by done.
      destruct (result (_perform_utilproc E cmd_args on_cmd (Some []) ignore
                          verbose (Py.join src name) child st)) as [v|x];
        cbn [result final emitted].
      * rewrite Hcf. cbn [after final emitted]. split; [done|].
        intros args H. apply in_app_or in H as [H|H];
          [by eapply Hcev | by eapply Hev].
      * destruct (is_environment_error x); cbn [final emitted];
          (split; [done|]); intros args H; [|by eapply Hcev].
        apply in_app_or in H as [H|[H|[]]]; [by eapply Hcev | discriminate].
    + destruct child; try discriminate.
      rewrite level_not_included by done. cbn [after final emitted].
      split; [done|]. intros args H. apply in_app_or in H as [H|H].
      * by eapply skip_events_not_popen.
      * by eapply Hev.
Qed.

(* ===================================================================== *)
(** ** The ignore list of the compress stage, and the argument vector *)
(* ===================================================================== *)

Lemma matches_app (E : env) (l1 l2 : list string) (name : string) :
  matches E (l1 ++ l2) name = matches E l1 name || matches E l2 name.
Proof. unfold matches. apply existsb_app. Qed.

Lemma excluded_gzip_ignore (E : env) (ignore : option (list string))
    (name : string) :
  excluded E (Some (gzip_ignore ignore)) name
  = excluded E ignore name || fnmatch E name "*.gz".
Proof.
  destruct ignore as [[|pat pats]|]; cbn [excluded gzip_ignore].
  - simpl. by rewrite orb_false_r.
  - rewrite matches_app. f_equal. simpl. by rewrite orb_false_r.
  - simpl. by rewrite orb_false_r.
Qed.

(** X10. Whatever ignore list [gzip_content] is given (none, an empty one, or
    patterns of the caller), its walk passes over every entry whose name
    matches [*.gz] and every entry that a pattern of the caller matches:
    nothing is done for such an entry but the verbose notice. *)
Theorem gzip_skips_gz_and_ignored (E : env) (include_files : list string)
    (ignore : option (list string)) (verbose : bool)
    (src : string) (names : list string) (name : string) (child : node)
    (rest : list (string * node)) (st : store) :
  name ∈ names ->
  fnmatch E name "*.gz" = true \/ excluded E ignore name = true ->
  gzip_level E include_files ignore verbose src names ((name, child) :: rest) st
  = after (skip_events verbose "ignored: " (Py.join src name))
          (gzip_level E include_files ignore verbose src names rest st).
Proof.
  intros Hin Hm. unfold gzip_level. apply level_excluded; [done|].
  rewrite excluded_gzip_ignore. destruct Hm as [-> | ->];
    [apply orb_true_r | reflexivity].
Qed.

Lemma gzip_skips_gz_and_ignored_witness :
  gzip_level (Demo.make Demo.tool_ok (Dir [("a.css.gz", File)]))
             ["*.css"; "*.gz"] (Some ["tmp*"]) true
             "root" ["a.css.gz"] [("a.css.gz", File)] ∅
  = Run (Ret (ret_pair true None)) ∅
        [Ev_cprint Warning (P_str "ignored: ") (P_str "root/a.css.gz")].
Proof.
  rewrite (gzip_skips_gz_and_ignored
             (Demo.make Demo.tool_ok (Dir [("a.css.gz", File)]))
             ["*.css"; "*.gz"] (Some ["tmp*"]) true
             "root" ["a.css.gz"] "a.css.gz" File [] ∅
             (list_elem_of_here _ _) (or_introl eq_refl)).
  vm_compute. reflexivity.
Defined.

(** X11. Substitution of the file name: the argument vector keeps its length,
    every argument that is not the placeholder stays where it is, and
    unless the path is itself the placeholder text no placeholder is left,
    however many the template holds. *)
Theorem substitute_leaves_no_placeholder (cmd_args : list string)
    (srcname : string) :
  srcname ≠ "{FILENAME}" ->
  length (substitute cmd_args srcname) = length cmd_args
  /\ ~ In "{FILENAME}" (substitute cmd_args srcname)
  /\ forall i a, cmd_args !! i = Some a -> a ≠ "{FILENAME}" ->
                 substitute cmd_args srcname !! i = Some a.
Proof.
  intros Hsrc. unfold substitute. split; [apply length_map|]. split.
  - intros H. apply in_map_iff in H as (a & Ha & _).
    destruct (String.eqb a "{FILENAME}") eqn:Heq; [done|].
    by apply String.eqb_neq in Heq.
  - intros i a Hi Ha. rewrite list_lookup_fmap, Hi. simpl.
    apply String.eqb_neq in Ha. by rewrite Ha.
Qed.

Lemma substitute_leaves_no_placeholder_witness :
  length (substitute ["gzip"; "-c"; "{FILENAME}"] "root/a.css") = 3%nat.
Proof.
  refine (proj1 (substitute_leaves_no_placeholder
                   ["gzip"; "-c"; "{FILENAME}"] "root/a.css" _)).
  discriminate.
Defined.

(* ===================================================================== *)
(** ** What the HTML handler writes *)
(* ===================================================================== *)

(** The lines of [splitlines], put together, are the text without its CR
    and LF characters. *)
Lemma concat_splitlines_from (n : nat) :
  forall s cur, (String.length s <= n)%nat ->
    String.concat "" (Py.splitlines_from cur s) = cur +:+ without_newlines s.
Proof.
  induction n as [|n IH]; intros s cur Hlen.
  { destruct s; [|simpl in Hlen; lia]. simpl.
    destruct (String.eqb cur "") eqn:Hc.
    - apply String.eqb_eq in Hc. by subst.
    - simpl. by rewrite append_empty_r. }
  destruct s as [|a s]; [apply (IH "" cur); simpl; lia|].
  simpl in Hlen. simpl Py.splitlines_from. simpl without_newlines.
  destruct (Ascii.eqb a "010") eqn:Hlf.
  { cbn [orb]. rewrite concat_cons, IH by lia. by rewrite append_empty. }
  destruct (Ascii.eqb a "013") eqn:Hcr; cbn [orb].
  - destruct s as [|b s].
    + simpl. by rewrite append_empty_r.
    + destruct (Ascii.eqb b "010") eqn:Hb.
      * rewrite concat_cons, IH by (simpl in Hlen; lia).
        simpl without_newlines. rewrite Hb. cbn [orb].
        by rewrite append_empty.
      * rewrite concat_cons, IH by lia. by rewrite append_empty.
  - rewrite IH by lia. by rewrite append_assoc.
Qed.



(* ===================================================================== *)
(** ** [build] without IO-level fault *)
(* ===================================================================== *)

Lemma bind_returns {A B : Type} (m : M A) (k : A -> M B) (st : store) (a : A) :
  result (m st) = Ret a ->
  (m ≫= k) st = after (emitted (m st)) (k a (final (m st))).
Proof. intros H. unfold mbind, M_bind. by rewrite H. Qed.

Section BuildReturns.

Context (E : env) (static_path : string).

Hypothesis spawns :
  forall st args, exists rc out err, popen E st args = Exited rc out err.
Hypothesis opens : forall p, open_error E p = None.
Hypothesis listing :
  forall st, listable (scan E st static_path) = true
             /\ isdir (scan E st static_path) = true.

(** A stage whose walk succeeds returns. *)
Lemma stage_returns (walk : string -> node -> M retval) (st : store) :
  (forall t, listable t = true -> isdir t = true ->
             forall st', result (walk static_path t st')
                         = Ret (ret_pair true None)) ->
  result ((t ← get_tree E static_path ; r ← walk static_path t ; check r) st)
  = Ret tt.
Proof.
  intros Hwalk. destruct (listing st) as [Hl Hd].
  rewrite (bind_returns _ _ _ (scan E st static_path)) by reflexivity.
  rewrite after_result. cbn [final get_tree].
  rewrite (bind_returns _ _ _ (ret_pair true None)) by by apply Hwalk.
  by rewrite after_result.
Qed.

Lemma minify_html_returns (util_dir : string) (verbose fix_django : bool)
    (st : store) :
  result (minify_html E static_path util_dir verbose fix_django st) = Ret tt.
Proof.
  apply stage_returns. intros t Hl Hd st'. unfold minify_html_walk.
  apply walk_without_io_fault_succeeds; try done.
  intros f [= <-] p c st''.
  by rewrite (write_handler_open_ok E fix_django p c st'' (opens p)).
Qed.

Lemma minify_css_returns (util_dir : string) (verbose : bool) (st : store) :
  result (minify_css E static_path util_dir verbose st) = Ret tt.
Proof.
  apply stage_returns. intros t Hl Hd st'. unfold minify_css_walk.
  apply walk_without_io_fault_succeeds; try done.
  intros f [= <-] p c st''. by rewrite minify_write_file_ok.
Qed.

Lemma minify_js_returns (util_dir : string) (verbose : bool) (st : store) :
  result (minify_js E static_path util_dir verbose st) = Ret tt.
Proof.
  apply stage_returns. intros t Hl Hd st'. unfold minify_js_walk.
  apply walk_without_io_fault_succeeds; try done.
  intros f [= <-] p c st''. by rewrite minify_write_file_ok.
Qed.

Lemma gzip_content_returns (util_dir : string) (include_files : list string)
    (ignore : option (list string)) (verbose : bool) (st : store) :
  result (gzip_content E static_path util_dir (Some include_files) ignore
                       verbose st) = Ret tt.
Proof.
  apply stage_returns. intros t Hl Hd st'. unfold gzip_content_walk.
  apply walk_without_io_fault_succeeds; try done.
  intros f [= <-] p c st''. by rewrite gzip_write_file_ok.
Qed.

(** Two computations that return, one after the other, return. *)
Lemma seq_returns (m k : M unit) :
  (forall st, result (m st) = Ret tt) ->
  (forall st, result (k st) = Ret tt) ->
  forall st, result ((m ;; k) st) = Ret tt.
Proof.
  intros Hm Hk st. rewrite (bind_returns _ _ _ tt) by apply Hm.
  by rewrite after_result.
Qed.

Lemma build_body_returns (util_dir : string) (verbose : bool) (st : store) :
  result ((cprint Info (P_str "Minifying html") (P_str "") ;;
           minify_html E static_path util_dir verbose false ;;
           cprint Info (P_str "Minifying stylesheets") (P_str "") ;;
           minify_css E static_path util_dir verbose ;;
           cprint Info (P_str "Minifying scripts") (P_str "") ;;
           minify_js E static_path util_dir verbose ;;
           cprint Info (P_str "GZipping css") (P_str "") ;;
           gzip_content E static_path util_dir (Some ["*.css"]) None verbose ;;
           cprint Info (P_str "GZipping js") (P_str "") ;;
           gzip_content E static_path util_dir (Some ["*.js"]) None verbose ;;
           cprint Info (P_str "GZipping images") (P_str "") ;;
           gzip_content E static_path util_dir
             (Some ["*.jpg"; "*.png"; "*.gif"; "*.bmp"; "*.ico"]) None verbose)
            st) = Ret tt.
Proof.
  revert st.
  apply seq_returns; [intros ?; reflexivity|].
  apply seq_returns; [apply minify_html_returns|].
  apply seq_returns; [intros ?; reflexivity|].
  apply seq_returns; [apply minify_css_returns|].
  apply seq_returns; [intros ?; reflexivity|].
  apply seq_returns; [apply minify_js_returns|].
  apply seq_returns; [intros ?; reflexivity|].
  apply seq_returns; [apply gzip_content_returns|].
  apply seq_returns; [intros ?; reflexivity|].
  apply seq_returns; [apply gzip_content_returns|].
  apply seq_returns; [intros ?; reflexivity|].
  apply gzip_content_returns.
Qed.

End BuildReturns.



(* ===================================================================== *)
(** ** A level as a sequence *)
(* ===================================================================== *)

(** X1. The loop over [pre ++ post] is the loop over [pre], followed by the
    loop over [post] from the store that [pre] left when [pre] came to its
    end; when [pre] stopped on a fault, [post] is not looked at. *)
Theorem level_app (E : env) (cmd_args : list string)
    (on_cmd : option (string -> string -> M unit))
    (include : list string) (ignore : option (list string)) (verbose : bool)
    (src : string) (names : list string)
    (pre post : list (string * node)) (st : store) :
  level E cmd_args on_cmd include ignore verbose src names (pre ++ post) st
  = match result (level E cmd_args on_cmd include ignore verbose src names
                        pre st) with
    | Ret (ret_pair true None) =>
        after (emitted (level E cmd_args on_cmd include ignore verbose src
                              names pre st))
              (level E cmd_args on_cmd include ignore verbose src names post
                     (final (level E cmd_args on_cmd include ignore verbose
                                   src names pre st)))
    | _ => level E cmd_args on_cmd include ignore verbose src names pre st
    end.
Proof.
  revert st. induction pre as [|[name child] pre IH]; intros st.
  { rewrite level_nil. cbn [result final emitted app]. by rewrite after_nil. }
  rewrite <- app_comm_cons.
  rewrite (level_cons_seq _ _ _ _ _ _ _ _ name child (pre ++ post)).
  rewrite (level_cons_seq _ _ _ _ _ _ _ _ name child pre).
  cbn zeta.
  set (one := level E cmd_args on_cmd include ignore verbose src names
                    [(name, child)] st).
  destruct (result one) as [[|[] []]|e] eqn:H1; rewrite ?H1; try reflexivity.
  rewrite IH.
  set (two := level E cmd_args on_cmd include ignore verbose src names pre
                    (final one)).
  cbn [after result final emitted].
  destruct (result two) as [[|[] []]|e] eqn:H2; try reflexivity.
  unfold after; cbn [result final emitted]. by rewrite app_assoc.
Qed.

(* ===================================================================== *)
(** ** The derived file names stay in the directory of the input *)
(* ===================================================================== *)

Section Dirpart.

Import Py.

Lemma rfind_from_none_absent (c : ascii) (s : string) (i : Z) :
  0 <= i ->
  rfind_from c s i = -1 ->
  forallb (fun a => negb (Ascii.eqb a c)) (list_ascii_of_string s) = true.
Proof.
  revert i. induction s as [|a s IH]; intros i Hi H; [reflexivity|].
  simpl in H. simpl.
  destruct (rfind_from_range c s (i + 1) ltac:(lia)) as [Hr | Hr].
  - rewrite Hr in H. simpl in H.
    destruct (Ascii.eqb a c); [lia|]. simpl. by apply (IH (i + 1)); [lia|].
  - replace (0 <=? rfind_from c s (i + 1)) with true in H
      by (symmetry; apply Z.leb_le; lia).
    lia.
Qed.

(** Past the index that [rfind] gives there is no further occurrence. *)
Lemma absent_after_rfind (c : ascii) (s : string) (i : Z) (k : nat) :
  0 <= i ->
  rfind_from c s i < i + Z.of_nat k ->
  forallb (fun a => negb (Ascii.eqb a c)) (list_ascii_of_string (drop k s))
  = true.
Proof.
  revert i k. induction s as [|a s IH]; intros i k Hi H.
  { by destruct k. }
  destruct k as [|k].
  - simpl drop.
    destruct (rfind_from_range c (String a s) i Hi) as [Hr | Hr]; [|lia].
    by apply (rfind_from_none_absent c _ i).
  - simpl drop. apply (IH (i + 1)); [lia|].
    simpl in H.
    destruct (rfind_from_range c s (i + 1) ltac:(lia)) as [Hr | Hr].
    + rewrite Hr. lia.
    + replace (0 <=? rfind_from c s (i + 1)) with true in H
        by (symmetry; apply Z.leb_le; lia).
      lia.
Qed.

Lemma take_append_le (n : nat) (s t : string) :
  (n <= String.length s)%nat -> take n (s +:+ t) = take n s.
Proof.
  revert s. induction n as [|n IH]; intros [|a s] Hn; simpl in *;
    try reflexivity; try lia; try (by destruct t).
  rewrite IH; [done|lia].
Qed.

Lemma take_take (n k : nat) (s : string) :
  (n <= k)%nat -> take n (take k s) = take n s.
Proof.
  revert k s. induction n as [|n IH]; intros k s Hn.
  { by destruct (take k s), s. }
  destruct k as [|k]; [lia|]. destruct s as [|a s]; [reflexivity|].
  simpl. rewrite IH; [done|lia].
Qed.

Lemma length_take_le (k : nat) (s : string) :
  (String.length (take k s) <= k)%nat.
Proof.
  revert s. induction k as [|k IH]; intros [|a s]; simpl; try lia.
  specialize (IH s). lia.
Qed.

(** A text put in at an index past the last slash moves neither the slash
    nor what comes before it. *)
Lemma dirpart_insert (p x : string) (k : nat) :
  Py.rfind p "/" < Z.of_nat k ->
  (k <= String.length p)%nat ->
  forallb (fun a => negb (Ascii.eqb a "/")) (list_ascii_of_string x) = true ->
  dirpart (take k p +:+ x +:+ drop k p) = dirpart p.
Proof.
  intros Hk Hlen Hx. unfold rfind in Hk.
  assert (Hdrop := absent_after_rfind "/" p 0 k ltac:(lia) ltac:(lia)).
  assert (Htail : forallb (fun a => negb (Ascii.eqb a "/"))
                          (list_ascii_of_string (x +:+ drop k p)) = true).
  { clear -Hx Hdrop. induction x as [|a x IH]; [done|].
    rewrite append_cons. simpl in *.
    apply andb_true_iff in Hx as [-> Hx]. simpl. by apply IH. }
  assert (Hsame : rfind_from "/" (take k p) 0 = rfind_from "/" p 0).
  { rewrite <- (take_drop k p) at 2.
    by rewrite rfind_from_append_absent. }
  unfold dirpart, rfind.
  rewrite rfind_from_append_absent by done. rewrite Hsame.
  set (n := Z.to_nat (rfind_from "/" p 0 + 1)).
  assert (Hn : (n <= k)%nat) by (unfold n; lia).
  rewrite take_append_le by (rewrite length_take; lia).
  by apply take_take.
Qed.

End Dirpart.

(** X13. Both handlers write beside their input: the derived names
    [min_filename f] and [f.gz] have the directory part of [f], so the
    file is created in the directory that holds [f]. *)
Theorem handlers_write_beside_their_input (filename : string) :
  dirpart (min_filename filename) = dirpart filename
  /\ dirpart (filename +:+ ".gz") = dirpart filename.
Proof.
  assert (Hr := rfind_from_range "/" filename 0 ltac:(lia)).
  assert (Htake : Py.take (String.length filename) filename = filename).
  { rewrite <- (append_empty_r filename) at 2. apply take_append. }
  assert (Hdrop : Py.drop (String.length filename) filename = "").
  { rewrite <- (append_empty_r filename) at 2. apply drop_append. }
  assert (Hend : forall x,
            forallb (fun a => negb (Ascii.eqb a "/")) (list_ascii_of_string x)
            = true ->
            dirpart (filename +:+ x) = dirpart filename).
  { intros x Hx.
    pose proof (dirpart_insert filename x (String.length filename)) as H.
    rewrite Htake, Hdrop, append_empty_r in H.
    apply H; [unfold Py.rfind; lia | lia | exact Hx]. }
  split; [|by apply Hend].
  unfold min_filename, Py.splitext. cbn zeta.
  destruct (_ && _) eqn:Hc; cbn [fst snd].
  - apply andb_true_iff in Hc as [Hlt _]. apply Z.ltb_lt in Hlt.
    assert (Hd := rfind_from_range "." filename 0 ltac:(lia)).
    unfold Py.rfind in *.
    apply (dirpart_insert filename ".min"
             (Z.to_nat (Py.rfind_from "." filename 0)));
      [unfold Py.rfind; lia | lia | reflexivity].
  - rewrite append_empty_r. by apply Hend.
Qed.

Lemma walk_actions_follow_plan_witness :
  actions
    (emitted
       (gzip_content_walk
          (Demo.make Demo.tool_ok File) (Some ["*.css"]) None true "root"
          (Dir [("a.css", File); ("a.css.gz", File);
                ("sub", Dir [("b.css", File); ("c.js", File)])]) ∅))
  = plan (Demo.make Demo.tool_ok File) COMPRESS_FILE ["*.css"] (Some ["*.gz"])
         "root"
         (Dir [("a.css", File); ("a.css.gz", File);
               ("sub", Dir [("b.css", File); ("c.js", File)])]).
Proof.
  apply (walk_actions_follow_plan
           (Demo.make Demo.tool_ok File) COMPRESS_FILE
           (Some (gzip_write_file (Demo.make Demo.tool_ok File)))
           ["*.css"] (Some ["*.gz"]) true).
  - intros st args. exists 0, "min", "". reflexivity.
  - intros f [= <-] p c st. rewrite gzip_write_file_ok; reflexivity.
  - intros f [= <-] p c st. rewrite gzip_write_file_ok; reflexivity.
  - reflexivity.
  - reflexivity.
Defined.

(* ===================================================================== *)
(** ** Excluded entries are invisible *)
(* ===================================================================== *)

Section Prune.

Context (E : env) (cmd_args : list string)
        (on_cmd : option (string -> string -> M unit))
        (include : list string) (ignore : option (list string)).

Local Abbreviation lev := (level E cmd_args on_cmd include ignore false).
Local Abbreviation walk :=
  (_perform_utilproc E cmd_args on_cmd (Some include) ignore false).
Local Abbreviation pruned :=
  (flat_map (fun e : string * node =>
               if excluded E ignore (fst e) then []
               else [(fst e, prune E ignore (snd e))])).

Lemma isdir_prune (t : node) : isdir (prune E ignore t) = isdir t.
Proof. by destruct t. Qed.

(** The loop on one entry that is not excluded sees of the entry only its
    kind and what its own walk does, and of the listing only that the name
    is in it. *)
Lemma level_single_congruence (src : string) (names names' : list string)
    (name : string) (child child' : node) (st : store) :
  name ∈ names -> name ∈ names' ->
  excluded E ignore name = false ->
  isdir child' = isdir child ->
  (forall st', walk (Py.join src name) child st'
               = walk (Py.join src name) child' st') ->
  lev src names [(name, child)] st = lev src names' [(name, child')] st.
Proof.
  intros Hin Hin' Hex Hkind Hwalk.
  destruct (isdir child) eqn:Hdir.
  - rewrite !level_processed;
      [|done|unfold processed; by rewrite Hex, Hkind|done
       |unfold processed; by rewrite Hex, Hdir].
    cbn zeta. rewrite !attempt_dir by done. rewrite Hwalk.
    destruct (result _) as [v|x]; [by rewrite !level_nil|reflexivity].
  - destruct child; try discriminate. destruct child'; try discriminate.
    destruct (matches E include name) eqn:Hinc.
    + rewrite !level_processed;
        [|done|unfold processed; by rewrite Hex, Hinc|done
         |unfold processed; by rewrite Hex, Hinc].
      cbn zeta. destruct (result _) as [v|x];
        [by rewrite !level_nil|reflexivity].
    + by rewrite !level_not_included, !level_nil.
Qed.

Lemma level_prune (src : string) (names names' : list string)
    (entries : list (string * node)) :
  Forall (fun e => forall src st,
            walk src (snd e) st = walk src (prune E ignore (snd e)) st)
         entries ->
  (forall e, In e entries -> fst e ∈ names) ->
  (forall e, In e entries -> excluded E ignore (fst e) = false ->
             fst e ∈ names') ->
  forall st, lev src names entries st = lev src names' (pruned entries) st.
Proof.
  induction entries as [|[name child] rest IHrest];
    intros Hsub Hnames Hnames' st; [by rewrite !level_nil|].
  apply Forall_cons in Hsub as [Hchild Hsub]. simpl in Hchild.
  assert (Hin : name ∈ names) by (apply (Hnames (name, child)); by left).
  assert (Hrest : forall st',
            lev src names rest st' = lev src names' (pruned rest) st').
  { apply IHrest; [done| |]; intros e He; [apply Hnames | apply Hnames'];
      by right. }
  cbn [flat_map fst snd].
  destruct (excluded E ignore name) eqn:Hex.
  - rewrite level_excluded by done. cbn [app skip_events].
    by rewrite after_nil.
  - assert (Hin' : name ∈ names')
      by (apply (Hnames' (name, child)); [by left | done]).
    cbn [app].
    rewrite (level_cons_seq _ _ _ _ _ _ _ names name child rest).
    rewrite (level_cons_seq _ _ _ _ _ _ _ names' name (prune E ignore child)
                            (pruned rest)).
    cbn zeta.
    rewrite (level_single_congruence src names names' name child
               (prune E ignore child) st Hin Hin' Hex (isdir_prune child)
               (Hchild (Py.join src name))).
    destruct (result _) as [[|[] []]|x]; try reflexivity.
    by rewrite Hrest.
Qed.

Lemma walk_prune (t : node) (src : string) (st : store) :
  walk src t st = walk src (prune E ignore t) st.
Proof.
  revert src st.
  induction t as [|d|entries IH] using node_ind_entries; intros src st;
    try reflexivity.
  cbn [prune]. rewrite !walk_Dir. f_equal.
  apply level_prune; [exact IH| |].
  - intros e He. apply list_elem_of_In. by apply in_map.
  - intros e He Hex. apply list_elem_of_In.
    apply (in_map fst _ (fst e, prune E ignore (snd e))).
    apply in_flat_map. exists e. split; [done|]. rewrite Hex. by left.
Qed.

End Prune.

(** X14. With [verbose] off, a walk cannot tell a tree from the same tree with
    every excluded entry taken out, at every level: it returns the same
    value, leaves the same store and emits the same events. Nothing under
    an excluded directory is read. *)
Theorem excluded_entries_are_invisible (E : env) (cmd_args : list string)
    (on_cmd : option (string -> string -> M unit))
    (include ignore : option (list string))
    (src : string) (t : node) (st : store) :
  _perform_utilproc E cmd_args on_cmd include ignore false src t st
  = _perform_utilproc E cmd_args on_cmd include ignore false src
                      (prune E ignore t) st.
Proof.
  destruct include as [inc|]; [apply walk_prune|].
  by destruct t.
Qed.

(* ===================================================================== *)
(** ** Running a walk again *)
(* ===================================================================== *)

Lemma apply_writes_app (ws1 ws2 : list (string * string)) (st : store) :
  apply_writes (ws1 ++ ws2) st = apply_writes ws2 (apply_writes ws1 st).
Proof. apply fold_left_app. Qed.

(** A sequence of writes either leaves a path alone or gives it a content
    that does not depend on the store. *)
Lemma apply_writes_key (ws : list (string * string)) (k : string) :
  (forall st, apply_writes ws st !! k = st !! k)
  \/ exists v, forall st, apply_writes ws st !! k = Some v.
Proof.
  induction ws as [|[p c] ws IH]; [by left|].
  destruct IH as [IH | [v IH]].
  - destruct (decide (p = k)) as [->|Hne].
    + right. exists c. intros st. cbn [apply_writes fold_left fst snd].
      fold (apply_writes ws (<[k := c]> st)). rewrite IH.
      apply lookup_insert_eq.
    + left. intros st. cbn [apply_writes fold_left fst snd].
      fold (apply_writes ws (<[p := c]> st)). rewrite IH.
      by apply lookup_insert_ne.
  - right. exists v. intros st. cbn [apply_writes fold_left fst snd].
    fold (apply_writes ws (<[p := c]> st)). apply IH.
Qed.

Lemma apply_writes_twice (ws : list (string * string)) (st : store) :
  apply_writes ws (apply_writes ws st) = apply_writes ws st.
Proof.
  apply map_eq. intros k.
  destruct (apply_writes_key ws k) as [H | [v H]]; [apply H|].
  by rewrite !H.
Qed.

Lemma oblivious_rerun {A : Type} (m : M A) :
  oblivious m -> forall st, m (final (m st)) = m st.
Proof.
  intros (r & ws & evs & H) st. rewrite !H. cbn [final].
  by rewrite apply_writes_twice.
Qed.

Section Oblivious.

Context (E : env) (cmd_args : list string)
        (on_cmd : option (string -> string -> M unit))
        (include : list string) (ignore : option (list string))
        (verbose : bool).

(** The commands do not read the store. *)
Hypothesis popen_fixed : forall st st' args, popen E st args = popen E st' args.

Hypothesis handler_oblivious :
  forall f, on_cmd = Some f -> forall p c, oblivious (f p c).

Local Abbreviation lev := (level E cmd_args on_cmd include ignore verbose).
Local Abbreviation walk :=
  (_perform_utilproc E cmd_args on_cmd (Some include) ignore verbose).

Lemma run_command_oblivious (srcname : string) :
  oblivious (run_command E cmd_args on_cmd verbose srcname).
Proof.
  destruct (popen E ∅ (substitute cmd_args srcname)) as [d|rc out err] eqn:Hp.
  - exists (Raise (OSError d)), [], (spawn_events verbose (substitute cmd_args srcname)).
    intros st. apply run_command_spawn_failed.
    by rewrite (popen_fixed st ∅).
  - destruct (Z.eq_dec rc 0) as [->|Hrc].
    + destruct on_cmd as [f|] eqn:Hf.
      * destruct (handler_oblivious f eq_refl srcname out) as (r & ws & evs & H).
        exists r, ws,
          (spawn_events verbose (substitute cmd_args srcname) ++ evs)%list.
        intros st.
        rewrite (run_command_handler _ _ _ _ _ out err f);
          [|by rewrite (popen_fixed st ∅)|done].
        by rewrite H.
      * exists (Ret tt), [],
          ((if verbose
            then [Ev_cprint Ok (P_str (Py.str_join " " (substitute cmd_args srcname)))
                            (P_str "")]
            else [])
           ++ Ev_popen (substitute cmd_args srcname)
              :: (if verbose then [Ev_print (P_str out)] else []))%list.
        intros st. rewrite run_command_popen.
        unfold mbind, M_bind, Popen. rewrite (popen_fixed st ∅), Hp.
        by destruct verbose.
    + eexists (Ret tt), [], _. intros st.
      apply (run_command_nonzero _ _ _ _ _ rc out err);
        [by rewrite (popen_fixed st ∅) | done].
Qed.

Lemma attempt_oblivious (src name : string) (child : node) :
  oblivious (walk (Py.join src name) child) ->
  oblivious (attempt E cmd_args on_cmd include ignore verbose src name child).
Proof.
  intros (r & ws & evs & H). destruct (isdir child) eqn:Hdir.
  - destruct r as [v|x].
    + exists (Ret tt), ws, evs. intros st.
      rewrite attempt_dir by done. by rewrite H.
    + exists (Raise x), ws, evs. intros st.
      rewrite attempt_dir by done. by rewrite H.
  - unfold attempt. rewrite Hdir. apply run_command_oblivious.
Qed.

Lemma level_single_oblivious (src : string) (names : list string)
    (name : string) (child : node) :
  oblivious (walk (Py.join src name) child) ->
  oblivious (lev src names [(name, child)]).
Proof.
  intros Hw. apply (attempt_oblivious src name child) in Hw.
  destruct Hw as (r & ws & evs & H).
  unfold level; simpl for_loop. unfold for_body.
  destruct (bool_decide (name ∈ ignore_files_of E ignore src names)).
  { eexists (Ret (ret_pair true None)), [], _. intros st.
    unfold cprint. rewrite bind_when.
    unfold after; cbn [result final emitted mret M_ret]. reflexivity. }
  destruct (negb (isdir child)
            && negb (bool_decide (name ∈ ignore_patterns E include src names))).
  { eexists (Ret (ret_pair true None)), [], _. intros st.
    unfold cprint. rewrite bind_when.
    unfold after; cbn [result final emitted mret M_ret]. reflexivity. }
  change (if isdir child then _ else _)
    with (attempt E cmd_args on_cmd include ignore verbose src name child).
  destruct r as [[]|x].
  - eexists (Ret (ret_pair true None)), ws, _. intros st.
    rewrite bind_try_except, H.
    unfold after; cbn [result final emitted mret M_ret]. reflexivity.
  - destruct (is_environment_error x) eqn:Hx.
    + eexists (Ret (ret_pair false (Some (failure_msg (Py.join src name))))),
        ws, _.
      intros st. rewrite bind_try_except, H. cbn [result]. rewrite Hx.
      unfold print. rewrite bind_emit.
      unfold after; cbn [result final emitted mret M_ret]. reflexivity.
    + eexists (Raise x), ws, _. intros st.
      rewrite bind_try_except, H. cbn [result]. rewrite Hx.
      cbn [final emitted]. reflexivity.
Qed.

Lemma level_oblivious (src : string) (names : list string)
    (entries : list (string * node)) :
  Forall (fun e => forall src, oblivious (walk src (snd e))) entries ->
  oblivious (lev src names entries).
Proof.
  induction entries as [|[name child] rest IH]; intros Hsub.
  { exists (Ret (ret_pair true None)), [], []. intros st. reflexivity. }
  apply Forall_cons in Hsub as [Hchild Hsub]. simpl in Hchild.
  destruct (level_single_oblivious src names name child
              (Hchild (Py.join src name))) as (r1 & w1 & e1 & H1).
  destruct (IH Hsub) as (r2 & w2 & e2 & H2).
  assert (Hstop : forall r, r1 = r ->
            (forall st, lev src names ((name, child) :: rest) st
                        = Run r (apply_writes w1 st) e1) ->
            oblivious (lev src names ((name, child) :: rest))).
  { intros r _ H. by exists r, w1, e1. }
  destruct r1 as [[|[] []]|x];
    try (apply (Hstop _ eq_refl); intros st;
         rewrite level_cons_seq; cbn zeta; by rewrite H1).
  exists r2, (w1 ++ w2)%list, (e1 ++ e2)%list. intros st.
  rewrite level_cons_seq. cbn zeta. rewrite H1. cbn [result final emitted].
  rewrite H2. unfold after; cbn [result final emitted].
  by rewrite apply_writes_app.
Qed.

Lemma walk_oblivious (t : node) (src : string) : oblivious (walk src t).
Proof.
  revert src. induction t as [|d|entries IH] using node_ind_entries;
    intros src.
  - eexists _, [], _. intros st. apply walk_File.
  - eexists _, [], _. intros st. apply walk_Unlistable.
  - destruct (level_oblivious src (map fst entries) entries IH)
      as (r & ws & evs & H).
    exists r, ws, (Ev_listdir src :: evs). intros st.
    rewrite walk_Dir, H. reflexivity.
Qed.

End Oblivious.

Section HandlersOblivious.

Context (E : env).

Lemma open_write_oblivious (path mode data : string) :
  oblivious (open E path mode ;; f_write path data).
Proof.
  destruct (open_error E path) as [d|] eqn:Ho.
  - exists (Raise (IOError d)), [], [Ev_open path mode]. intros st.
    unfold mbind, M_bind. by rewrite (open_fails _ _ _ _ _ Ho).
  - exists (Ret tt), [(path, data)], [Ev_open path mode; Ev_write path data].
    intros st. by apply open_then_write.
Qed.

Lemma write_handler_oblivious (fix_django : bool) (filename content : string) :
  oblivious (write_handler E fix_django filename content).
Proof.
  destruct (open_error E filename) as [d|] eqn:Ho.
  - exists (Raise (IOError d)), [], [Ev_open filename "w"]. intros st.
    unfold write_handler, html_write_file. unfold mbind at 1, M_bind.
    by rewrite (open_fails _ _ _ _ _ Ho).
  - eexists (Ret tt), [(filename, _)], _. intros st.
    by apply write_handler_open_ok.
Qed.

End HandlersOblivious.

(** X15. Running the walk of a stage again, on the same tree and from the store
    that the first run left, changes nothing when the commands do not read
    the store: the second run returns the same value, emits the same events
    and leaves the store as the first run left it. *)
Theorem stage_walk_rerun (E : env) (verbose fix_django : bool)
    (include_files ignore : option (list string))
    (src : string) (t : node) (st : store) :
  (forall st st' args, popen E st args = popen E st' args) ->
  minify_html_walk E verbose fix_django src t
    (final (minify_html_walk E verbose fix_django src t st))
  = minify_html_walk E verbose fix_django src t st
  /\ minify_css_walk E verbose src t (final (minify_css_walk E verbose src t st))
     = minify_css_walk E verbose src t st
  /\ minify_js_walk E verbose src t (final (minify_js_walk E verbose src t st))
     = minify_js_walk E verbose src t st
  /\ gzip_content_walk E include_files ignore verbose src t
       (final (gzip_content_walk E include_files ignore verbose src t st))
     = gzip_content_walk E include_files ignore verbose src t st.
Proof.
  intros Hp. repeat split.
  - apply oblivious_rerun, walk_oblivious; [done|].
    intros f [= <-] p c. apply write_handler_oblivious.
  - apply oblivious_rerun, walk_oblivious; [done|].
    intros f [= <-] p c. apply open_write_oblivious.
  - apply oblivious_rerun, walk_oblivious; [done|].
    intros f [= <-] p c. apply open_write_oblivious.
  - unfold gzip_content_walk. destruct include_files as [inc|].
    + apply oblivious_rerun, walk_oblivious; [done|].
      intros f [= <-] p c. apply open_write_oblivious.
    + by destruct t.
Qed.

Lemma stage_walk_rerun_witness :
  minify_css_walk (Demo.make Demo.tool_ok File) false "root"
    (Dir [("a.css", File); ("sub", Dir [("b.css", File)])])
    (final (minify_css_walk (Demo.make Demo.tool_ok File) false "root"
              (Dir [("a.css", File); ("sub", Dir [("b.css", File)])])
              {[ "root/a.min.css" := "stale" ]}))
  = minify_css_walk (Demo.make Demo.tool_ok File) false "root"
      (Dir [("a.css", File); ("sub", Dir [("b.css", File)])])
      {[ "root/a.min.css" := "stale" ]}.
Proof.
  refine (proj1 (proj2 (stage_walk_rerun
                          (Demo.make Demo.tool_ok File) false false
                          None None "root"
                          (Dir [("a.css", File); ("sub", Dir [("b.css", File)])])
                          {[ "root/a.min.css" := "stale" ]} _))).
  intros st st' args. reflexivity.
Defined.

(* ===================================================================== *)
(** ** How the module body ends *)
(* ===================================================================== *)


(* ===================================================================== *)
(** ** The verbose flag *)
(* ===================================================================== *)

Section Verbose.

Context (E : env) (cmd_args : list string)
        (on_cmd : option (string -> string -> M unit))
        (include : list string) (ignore : option (list string)).

Lemma effects_app (evs1 evs2 : list event) :
  effects (evs1 ++ evs2) = (effects evs1 ++ effects evs2)%list.
Proof. apply List.filter_app. Qed.

Lemma same_but_output_after {A : Type} (e1 e2 : list event) (r1 r2 : run A) :
  effects e1 = effects e2 ->
  same_but_output r1 r2 ->
  same_but_output (after e1 r1) (after e2 r2).
Proof.
  intros He (Hr & Hf & Hev). repeat split; [done|done|].
  cbn [after emitted]. by rewrite !effects_app, He, Hev.
Qed.

Lemma same_but_output_refl {A : Type} (r : run A) : same_but_output r r.
Proof. by repeat split. Qed.

Lemma run_command_verbose (srcname : string) (st : store) :
  same_but_output (run_command E cmd_args on_cmd true srcname st)
                  (run_command E cmd_args on_cmd false srcname st).
Proof.
  rewrite !run_command_popen.
  apply same_but_output_after; [reflexivity|].
  unfold mbind at 1 3, M_bind, Popen.
  destruct (popen E st (substitute cmd_args srcname)) as [d|rc out err];
    cbn [result final emitted]; [apply same_but_output_refl|].
  apply same_but_output_after; [reflexivity|].
  destruct (rc =? 0); cbn [negb]; [|apply same_but_output_refl].
  destruct on_cmd as [f|]; [apply same_but_output_refl|].
  by repeat split.
Qed.

Lemma attempt_verbose (src name : string) (child : node) (st : store) :
  same_but_output
    (_perform_utilproc E cmd_args on_cmd (Some include) ignore true
                       (Py.join src name) child st)
    (_perform_utilproc E cmd_args on_cmd (Some include) ignore false
                       (Py.join src name) child st) ->
  same_but_output
    (attempt E cmd_args on_cmd include ignore true src name child st)
    (attempt E cmd_args on_cmd include ignore false src name child st).
Proof.
  intros (Hr & Hf & Hev). destruct (isdir child) eqn:Hdir.
  - rewrite !attempt_dir by done. rewrite <- Hr.
    destruct (result _); by repeat split.
  - unfold attempt. rewrite Hdir. apply run_command_verbose.
Qed.

Lemma level_single_verbose (src : string) (names : list string)
    (name : string) (child : node) (st : store) :
  same_but_output
    (_perform_utilproc E cmd_args on_cmd (Some include) ignore true
                       (Py.join src name) child st)
    (_perform_utilproc E cmd_args on_cmd (Some include) ignore false
                       (Py.join src name) child st) ->
  same_but_output
    (level E cmd_args on_cmd include ignore true src names [(name, child)] st)
    (level E cmd_args on_cmd include ignore false src names [(name, child)] st).
Proof.
  intros Hw. apply (attempt_verbose src name child st) in Hw.
  destruct Hw as (Hr & Hf & Hev).
  unfold level; simpl for_loop. unfold for_body.
  destruct (bool_decide (name ∈ ignore_files_of E ignore src names)).
  { unfold cprint. rewrite !bind_when. by repeat split. }
  destruct (negb (isdir child)
            && negb (bool_decide (name ∈ ignore_patterns E include src names))).
  { unfold cprint. rewrite !bind_when. by repeat split. }
  rewrite !bind_try_except.
  change (if isdir child
          then _perform_utilproc E cmd_args on_cmd (Some include) ignore true
                                 (Py.join src name) child ≫= _
          else _)
    with (attempt E cmd_args on_cmd include ignore true src name child).
  change (if isdir child
          then _perform_utilproc E cmd_args on_cmd (Some include) ignore false
                                 (Py.join src name) child ≫= _
          else _)
    with (attempt E cmd_args on_cmd include ignore false src name child).
  rewrite <- Hr.
  destruct (result (attempt E cmd_args on_cmd include ignore true
                            src name child st)) as [[]|x].
  - apply same_but_output_after; [done|].
    unfold mret, M_ret. rewrite Hf. apply same_but_output_refl.
  - destruct (is_environment_error x).
    + apply same_but_output_after; [done|].
      unfold print. rewrite !bind_emit, Hf. apply same_but_output_refl.
    + by repeat split.
Qed.

Lemma level_verbose (src : string) (names : list string)
    (entries : list (string * node)) :
  Forall (fun e => forall src st,
            same_but_output
              (_perform_utilproc E cmd_args on_cmd (Some include) ignore true
                                 src (snd e) st)
              (_perform_utilproc E cmd_args on_cmd (Some include) ignore false
                                 src (snd e) st)) entries ->
  forall st,
    same_but_output
      (level E cmd_args on_cmd include ignore true src names entries st)
      (level E cmd_args on_cmd include ignore false src names entries st).
Proof.
  induction entries as [|[name child] rest IH]; intros Hsub st.
  { apply same_but_output_refl. }
  apply Forall_cons in Hsub as [Hchild Hsub]. simpl in Hchild.
  rewrite (level_cons_seq E cmd_args on_cmd include ignore true src names
                          name child rest).
  rewrite (level_cons_seq E cmd_args on_cmd include ignore false src names
                          name child rest).
  cbn zeta.
  assert (H1 := level_single_verbose src names name child st
                  (Hchild (Py.join src name) st)).
  destruct H1 as (Hr & Hf & Hev).
  assert (H1 : same_but_output
                 (level E cmd_args on_cmd include ignore true src names
                        [(name, child)] st)
                 (level E cmd_args on_cmd include ignore false src names
                        [(name, child)] st)) by (split; [|split]; assumption).
  rewrite <- Hr.
  destruct (result (level E cmd_args on_cmd include ignore true src names
                          [(name, child)] st)) as [[|[] [m|]]|x].
  - exact H1.
  - exact H1.
  - apply same_but_output_after; [exact Hev|]. rewrite <- Hf. apply IH.
    exact Hsub.
  - exact H1.
  - exact H1.
  - exact H1.
Qed.

Lemma walk_verbose (t : node) (src : string) (st : store) :
  same_but_output
    (_perform_utilproc E cmd_args on_cmd (Some include) ignore true src t st)
    (_perform_utilproc E cmd_args on_cmd (Some include) ignore false src t st).
Proof.
  revert src st. induction t as [|d|entries IH] using node_ind_entries;
    intros src st.
  - rewrite !walk_File. apply same_but_output_refl.
  - rewrite !walk_Unlistable. apply same_but_output_refl.
  - rewrite !walk_Dir. apply same_but_output_after; [reflexivity|].
    apply level_verbose. exact IH.
Qed.

End Verbose.

(** X17. The verbose flag changes nothing but what is printed: with the flag
    on and off a walk returns the same value, leaves the same store, and
    lists, spawns, opens and writes the same things in the same order. *)
Theorem verbose_changes_output_only (E : env) (cmd_args : list string)
    (on_cmd : option (string -> string -> M unit))
    (include ignore : option (list string))
    (src : string) (t : node) (st : store) :
  same_but_output
    (_perform_utilproc E cmd_args on_cmd include ignore true src t st)
    (_perform_utilproc E cmd_args on_cmd include ignore false src t st).
Proof.
  destruct include as [inc|]; [apply walk_verbose|].
  destruct t; split; [|split| |split| |split]; reflexivity.
Qed.

(* ===================================================================== *)
(** ** How a stage ends *)
(* ===================================================================== *)

Lemma stage_of_outcome (E : env) (walk : string -> node -> M retval)
    (src : string) (entries : list (string * node)) (st : store) :
  scan E st src = Dir entries ->
  dir_outcome src entries (result (walk src (Dir entries) st)) ->
  stage_outcome src entries
    (result ((t ← get_tree E src ; r ← walk src t ; check r) st)).
Proof.
  intros Hscan Hout.
  rewrite (bind_returns _ _ _ (Dir entries))
    by (unfold get_tree; cbn [result]; by rewrite Hscan).
  rewrite after_result. cbn [final get_tree].
  destruct Hout as [Hw | (name & child & Hin & Hw)].
  - left. rewrite (bind_returns _ _ _ _ Hw). by rewrite after_result.
  - right. exists name, child. split; [done|].
    rewrite (bind_returns _ _ _ _ Hw). by rewrite after_result.
Qed.


